(** * Task orchestration and liveness monitoring of the browser-use API

    A shallow embedding of [browser_use/api/monitoring.py] (the
    [TaskMonitor] class: task registry, status updates, progress reports,
    stall escalation, retention cleanup) and of the admission and
    cancellation handlers of [browser_use/api/server.py].

    Conventions of the embedding.
    - A Python [dict] keyed by task id is a [gmap string _].
    - A [datetime] is an integer number of microseconds since the epoch
      (the resolution of Python's [datetime]); a [timedelta] is their
      difference, and [td.total_seconds() > n] for an integer [n] reads
      [td > n * 1000000].
    - Every handler is synchronous between its clock reads, so one call
      takes one reading [now] of the clock, passed as an argument.
    - Python [int] is [Z]. *)

From Stdlib Require Import ZArith Lia DecimalString.
From stdpp Require Import gmap strings list fin_maps.

Local Open Scope Z_scope.

Definition datetime := Z.
Definition timedelta := Z.

(** Microseconds in a second. *)
Definition usec : Z := 1000000.

(** [td.total_seconds() > n] *)
Definition total_seconds_gt (td : timedelta) (n : Z) : bool := n * usec <? td.

(** The text of [f"{td.total_seconds():.0f}"]: seconds rounded to the
    nearest integer, ties to even; a negative value that rounds to zero
    keeps its sign. *)
Definition round_seconds (td : timedelta) : Z :=
  let q := td / usec in
  let r := td mod usec in
  if 2 * r <? usec then q
  else if usec <? 2 * r then q + 1
  else if Z.even q then q else q + 1.

Definition format_0f (td : timedelta) : string :=
  if (td <? 0) && (round_seconds td =? 0) then "-0"
  else NilZero.string_of_int (Z.to_int (round_seconds td)).

(** Python truthiness of an [Optional[str]]: [None] and the empty string
    are false. *)
Definition truthy (o : option string) : bool :=
  match o with
  | Some (String _ _) => true
  | _ => false
  end.

(** ** monitoring.py *)
Module Monitoring.

Inductive TaskStatus : Type :=
  | QUEUED | RUNNING | COMPLETED | ERROR | CANCELLED | STALLED.

#[global] Instance TaskStatus_eq_dec : EqDecision TaskStatus.
Proof. solve_decision. Defined.

(** [TaskStatus.value] *)
Definition value (s : TaskStatus) : string :=
  match s with
  | QUEUED => "queued" | RUNNING => "running" | COMPLETED => "completed"
  | ERROR => "error" | CANCELLED => "cancelled" | STALLED => "stalled"
  end.

(** The dataclass [TaskMetrics]. [duration_seconds] is kept in
    microseconds, like every time difference here; [resource_usage] is
    always the empty dict and is left out. *)
Record TaskMetrics : Type := mkTaskMetrics {
  task_id : string;
  user_id : string;
  status : TaskStatus;
  steps_completed : Z;
  steps_target : Z;
  created_at : datetime;
  started_at : option datetime;
  completed_at : option datetime;
  last_activity : option datetime;
  duration_seconds : timedelta;
  error_message : option string;
  stall_count : Z
}.

#[global] Instance TaskMetrics_eq_dec : EqDecision TaskMetrics.
Proof. solve_decision. Defined.

(** Attribute assignments [metrics.f = v]. *)
Definition set_status (v : TaskStatus) (m : TaskMetrics) : TaskMetrics :=
  mkTaskMetrics (task_id m) (user_id m) v (steps_completed m)
    (steps_target m) (created_at m) (started_at m) (completed_at m)
    (last_activity m) (duration_seconds m) (error_message m) (stall_count m).

Definition set_steps_completed (v : Z) (m : TaskMetrics) : TaskMetrics :=
  mkTaskMetrics (task_id m) (user_id m) (status m) v
    (steps_target m) (created_at m) (started_at m) (completed_at m)
    (last_activity m) (duration_seconds m) (error_message m) (stall_count m).

Definition set_started_at (v : option datetime) (m : TaskMetrics) : TaskMetrics :=
  mkTaskMetrics (task_id m) (user_id m) (status m) (steps_completed m)
    (steps_target m) (created_at m) v (completed_at m)
    (last_activity m) (duration_seconds m) (error_message m) (stall_count m).

Definition set_completed_at (v : option datetime) (m : TaskMetrics) : TaskMetrics :=
  mkTaskMetrics (task_id m) (user_id m) (status m) (steps_completed m)
    (steps_target m) (created_at m) (started_at m) v
    (last_activity m) (duration_seconds m) (error_message m) (stall_count m).

Definition set_last_activity (v : option datetime) (m : TaskMetrics) : TaskMetrics :=
  mkTaskMetrics (task_id m) (user_id m) (status m) (steps_completed m)
    (steps_target m) (created_at m) (started_at m) (completed_at m)
    v (duration_seconds m) (error_message m) (stall_count m).

Definition set_duration_seconds (v : timedelta) (m : TaskMetrics) : TaskMetrics :=
  mkTaskMetrics (task_id m) (user_id m) (status m) (steps_completed m)
    (steps_target m) (created_at m) (started_at m) (completed_at m)
    (last_activity m) v (error_message m) (stall_count m).

Definition set_error_message (v : option string) (m : TaskMetrics) : TaskMetrics :=
  mkTaskMetrics (task_id m) (user_id m) (status m) (steps_completed m)
    (steps_target m) (created_at m) (started_at m) (completed_at m)
    (last_activity m) (duration_seconds m) v (stall_count m).

Definition set_stall_count (v : Z) (m : TaskMetrics) : TaskMetrics :=
  mkTaskMetrics (task_id m) (user_id m) (status m) (steps_completed m)
    (steps_target m) (created_at m) (started_at m) (completed_at m)
    (last_activity m) (duration_seconds m) (error_message m) v.

(** The class [TaskMonitor]: its three settings and the registry
    [task_metrics]. *)
Record TaskMonitor : Type := mkTaskMonitor {
  stall_timeout : Z;
  max_stall_checks : Z;
  cleanup_interval : Z;
  task_metrics : gmap string TaskMetrics
}.

(** [TaskMonitor()] with the default arguments. *)
Definition init (stall_timeout max_stall_checks cleanup_interval : Z) : TaskMonitor :=
  mkTaskMonitor stall_timeout max_stall_checks cleanup_interval ∅.

Definition default_monitor : TaskMonitor := init 60 3 300.

Definition set_task_metrics (r : gmap string TaskMetrics) (self : TaskMonitor)
  : TaskMonitor :=
  mkTaskMonitor (stall_timeout self) (max_stall_checks self)
    (cleanup_interval self) r.

(** [self.task_metrics[tid] = m]; also the effect of mutating in place
    the record stored under [tid]. *)
Definition store (tid : string) (m : TaskMetrics) (self : TaskMonitor) : TaskMonitor :=
  set_task_metrics (<[tid := m]> (task_metrics self)) self.

(** [register_task] *)
Definition new_metrics (now : datetime) (tid uid : string) (max_steps : Z)
  : TaskMetrics :=
  mkTaskMetrics tid uid QUEUED 0 max_steps now None None None 0 None 0.

Definition register_task (now : datetime) (tid uid : string) (max_steps : Z)
    (self : TaskMonitor) : TaskMonitor :=
  store tid (new_metrics now tid uid max_steps) self.

(** The body of [update_task_status] once the record is found. *)
Definition status_update (now : datetime) (st : TaskStatus)
    (steps : option Z) (err : option string) (metrics : TaskMetrics) : TaskMetrics :=
  let old_status := status metrics in
  let m1 := set_last_activity (Some now) (set_status st metrics) in
  let m2 := match steps with
            | Some s => set_steps_completed s m1
            | None => m1
            end in
  let m3 := if truthy err then set_error_message err m2 else m2 in
  if bool_decide (st = RUNNING ∧ old_status = QUEUED) then
    set_started_at (Some now) m3
  else if bool_decide (st ∈ [COMPLETED; ERROR; CANCELLED]) then
    let m4 := set_completed_at (Some now) m3 in
    match started_at m4 with
    | Some s => set_duration_seconds (now - s) m4
    | None => m4
    end
  else m3.

Definition update_task_status (now : datetime) (tid : string) (st : TaskStatus)
    (steps : option Z) (err : option string) (self : TaskMonitor) : TaskMonitor :=
  match task_metrics self !! tid with
  | None => self
  | Some metrics => store tid (status_update now st steps err metrics) self
  end.

(** [update_task_progress]: the state it leaves. *)
Definition progress_update (now : datetime) (steps : Z) (metrics : TaskMetrics)
  : TaskMetrics :=
  if steps_completed metrics <? steps then
    set_stall_count 0
      (set_last_activity (Some now) (set_steps_completed steps metrics))
  else metrics.

Definition update_task_progress (now : datetime) (tid : string) (steps : Z)
    (self : TaskMonitor) : TaskMonitor :=
  match task_metrics self !! tid with
  | None => self
  | Some metrics =>
      if steps_completed metrics <? steps then
        store tid (progress_update now steps metrics) self
      else self
  end.

(** [update_task_progress] computes [steps_completed / steps_target]
    after the three assignments: with a zero target the call ends in
    [ZeroDivisionError], the assignments already made. *)
Definition update_task_progress_raises (tid : string) (steps : Z)
    (self : TaskMonitor) : bool :=
  match task_metrics self !! tid with
  | None => false
  | Some metrics =>
      (steps_completed metrics <? steps) && (steps_target metrics =? 0)
  end.

(** [get_task_metrics] *)
Definition get_task_metrics (tid : string) (self : TaskMonitor)
  : option TaskMetrics :=
  task_metrics self !! tid.

(** [get_active_tasks] *)
Definition is_active (m : TaskMetrics) : bool :=
  bool_decide (status m ∈ [QUEUED; RUNNING]).

Definition get_active_tasks (self : TaskMonitor) : list TaskMetrics :=
  filter (λ m, is_active m = true) (snd <$> map_to_list (task_metrics self)).

(** [_check_stalled_tasks]: the message of the stalled transition. *)
Definition stalled_message (inactive : timedelta) : string :=
  "Task stalled dopo " +:+ format_0f inactive +:+ "s di inattività".

(** One iteration of the loop of [_check_stalled_tasks] over the item
    [(tid, metrics)]. *)
Definition check_task (now : datetime) (tid : string) (metrics : TaskMetrics)
    (self : TaskMonitor) : TaskMonitor :=
  if bool_decide (status metrics ≠ RUNNING) then self
  else match last_activity metrics with
       | None => self
       | Some la =>
           let inactive := now - la in
           if total_seconds_gt inactive (stall_timeout self) then
             let metrics' := set_stall_count (stall_count metrics + 1) metrics in
             let self' := store tid metrics' self in
             if max_stall_checks self <=? stall_count metrics' then
               update_task_status now tid STALLED None
                 (Some (stalled_message inactive)) self'
             else self'
           else self
       end.

(** The loop runs over the items of the registry; an iteration touches
    only the record of its own key, so the order of the items does not
    matter. *)
Definition check_stalled_tasks (now : datetime) (self : TaskMonitor) : TaskMonitor :=
  map_fold (check_task now) self (task_metrics self).

(** [_cleanup_old_tasks] *)
Definition cleanup_age : Z := 3600.

Definition removable (now : datetime) (metrics : TaskMetrics) : bool :=
  if bool_decide (status metrics ∉ [COMPLETED; ERROR; CANCELLED]) then false
  else match completed_at metrics with
       | None => false
       | Some c => total_seconds_gt (now - c) cleanup_age
       end.

Definition to_remove (now : datetime) (self : TaskMonitor) : list string :=
  fst <$> filter (λ kv, removable now (snd kv) = true)
                 (map_to_list (task_metrics self)).

Definition cleanup_old_tasks (now : datetime) (self : TaskMonitor) : TaskMonitor :=
  set_task_metrics
    (foldl (λ r tid, delete tid r) (task_metrics self) (to_remove now self))
    self.

(** Calls on the monitor, and their effect in sequence. *)
Inductive call : Type :=
  | Register (now : datetime) (tid uid : string) (max_steps : Z)
  | UpdateStatus (now : datetime) (tid : string) (st : TaskStatus)
      (steps : option Z) (err : option string)
  | UpdateProgress (now : datetime) (tid : string) (steps : Z)
  | CheckStalled (now : datetime)
  | Cleanup (now : datetime).

Definition exec (c : call) (self : TaskMonitor) : TaskMonitor :=
  match c with
  | Register now tid uid max_steps => register_task now tid uid max_steps self
  | UpdateStatus now tid st steps err => update_task_status now tid st steps err self
  | UpdateProgress now tid steps => update_task_progress now tid steps self
  | CheckStalled now => check_stalled_tasks now self
  | Cleanup now => cleanup_old_tasks now self
  end.

Definition run (cs : list call) (self : TaskMonitor) : TaskMonitor :=
  foldl (λ s c, exec c s) self cs.

(** The statuses the specification calls terminal. *)
Definition terminal (s : TaskStatus) : Prop :=
  s ∈ [COMPLETED; ERROR; CANCELLED; STALLED].

#[global] Instance terminal_dec s : Decision (terminal s).
Proof. unfold terminal. apply _. Defined.

(** What one iteration of [_check_stalled_tasks] does to the record it
    visits, for a monitor with stall timeout [t] and threshold [k]. *)
Definition stall_check (t k : Z) (now : datetime) (metrics : TaskMetrics)
  : TaskMetrics :=
  if bool_decide (status metrics ≠ RUNNING) then metrics
  else match last_activity metrics with
       | None => metrics
       | Some la =>
           let inactive := now - la in
           if total_seconds_gt inactive t then
             let metrics' := set_stall_count (stall_count metrics + 1) metrics in
             if k <=? stall_count metrics' then
               status_update now STALLED None
                 (Some (stalled_message inactive)) metrics'
             else metrics'
           else metrics
       end.

(** Two monitors with the same three settings. *)
Definition same_settings (self self' : TaskMonitor) : Prop :=
  stall_timeout self' = stall_timeout self
  ∧ max_stall_checks self' = max_stall_checks self
  ∧ cleanup_interval self' = cleanup_interval self.

(** Calls that write the status of the record [tid]: a status update on
    it, and a registration under its id. *)
Definition writes_status (tid : string) (c : call) : bool :=
  match c with
  | Register _ tid' _ _ => bool_decide (tid' = tid)
  | UpdateStatus _ tid' _ _ _ => bool_decide (tid' = tid)
  | _ => false
  end.





(** Whether the task [tid] has received a status update to completed,
    error or cancelled since it was last registered, over the calls
    [cs] made in this order. *)
Definition finishing_step (tid : string) (b : bool) (c : call) : bool :=
  match c with
  | Register _ tid' _ _ => if bool_decide (tid' = tid) then false else b
  | UpdateStatus _ tid' st _ _ =>
      if bool_decide (tid' = tid)
         && bool_decide (st ∈ [COMPLETED; ERROR; CANCELLED])
      then true else b
  | _ => b
  end.

Definition finished_since_registration (tid : string) (cs : list call) : bool :=
  foldl (finishing_step tid) false cs.

(** [TaskStatus(s)]: the member whose value is [s]. [None] stands for
    the [ValueError] that an unknown value raises. *)
Definition all_statuses : list TaskStatus :=
  [QUEUED; RUNNING; COMPLETED; ERROR; CANCELLED; STALLED].

Definition of_value (s : string) : option TaskStatus :=
  list_find (λ st, value st = s) all_statuses ≫= λ '(_, st), Some st.

(** The module-level helper [update_task_status(task_id, status, ...)]
    on the global monitor: the status comes as a string. *)
Inductive helper_result : Type := Returned | ValueError.

Definition helper_update_task_status (now : datetime) (tid status : string)
    (steps : option Z) (err : option string) (self : TaskMonitor)
  : helper_result * TaskMonitor :=
  match of_value status with
  | None => (ValueError, self)
  | Some st => (Returned, update_task_status now tid st steps err self)
  end.

(** [get_user_tasks]. Like [get_active_tasks], the list is the one of
    the source up to the order of its elements. *)
Definition get_user_tasks (uid : string) (self : TaskMonitor) : list TaskMetrics :=
  filter (λ m, user_id m = uid) (snd <$> map_to_list (task_metrics self)).

(** [get_system_stats]. The flag [monitoring_active] of the monitor is
    an argument. [status_counts] is the dict of the source as the list
    of its items, in the order of the enumeration. *)
Record SystemStats : Type := mkSystemStats {
  stats_total_tasks : nat;
  stats_active_tasks : nat;
  stats_active_users : nat;
  stats_status_counts : list (string * nat);
  stats_monitoring_active : bool
}.

Definition count_status (st : TaskStatus) (self : TaskMonitor) : nat :=
  length (filter (λ m, status m = st) (snd <$> map_to_list (task_metrics self))).

Definition get_system_stats (monitoring_active : bool) (self : TaskMonitor)
  : SystemStats :=
  mkSystemStats
    (size (task_metrics self))
    (length (get_active_tasks self))
    (size (list_to_set
             (user_id <$> filter (λ m, status m ∈ [QUEUED; RUNNING])
                            (snd <$> map_to_list (task_metrics self)))
           : gset string))
    ((λ st, (value st, count_status st self)) <$> all_statuses)
    monitoring_active.

(** One pass of the body of the [while] loop of [_monitoring_loop],
    entered at time [now] with the time [last_cleanup] of the last
    cleanup: the stall scan, then the cleanup when more than
    [cleanup_interval] seconds have gone by. The pass returns the time
    of the last cleanup for the next one. *)
Definition monitoring_pass (now : datetime) (st : TaskMonitor * datetime)
  : TaskMonitor * datetime :=
  let '(self, last_cleanup) := st in
  let self1 := check_stalled_tasks now self in
  if total_seconds_gt (now - last_cleanup) (cleanup_interval self1)
  then (cleanup_old_tasks now self1, now)
  else (self1, last_cleanup).

(** [_monitoring_loop] started at time [start] and left running for the
    passes at the times [ticks]. *)
Definition monitoring_loop (start : datetime) (ticks : list datetime)
    (self : TaskMonitor) : TaskMonitor * datetime :=
  foldl (λ st now, monitoring_pass now st) (self, start) ticks.

End Monitoring.

(** ** server.py *)
Module Server.

(** [HTTPException(status_code, detail)] *)
Record HTTPException : Type := mkHTTPException {
  status_code : Z;
  detail : string
}.

(** The error names of the specification are the HTTP codes the handlers
    raise: 409 for a conflict, 404 for an unknown task, 400 for a task
    that can no longer be cancelled. *)
Definition ConflictError (e : HTTPException) : Prop := status_code e = 409.
Definition NotFoundError (e : HTTPException) : Prop := status_code e = 404.
Definition InvalidStateError (e : HTTPException) : Prop := status_code e = 400.

(** The pydantic model [TaskRequest]. *)
Record TaskRequest : Type := mkTaskRequest {
  req_task : string;
  req_user_id : string;
  req_session_id : option string;
  req_max_steps : option Z;
  req_model : option string
}.

(** The pydantic model [TaskResponse]. *)
Record TaskResponse : Type := mkTaskResponse {
  resp_success : bool;
  resp_task_id : string;
  resp_user_id : string;
  resp_session_id : string;
  resp_message : string
}.

(** A value of [active_tasks]: a dict with the keys written by
    [execute_task]; the keys added later by [run_agent_task] and
    [cancel_task] are optional fields. [status] is a Python string. *)
Record TaskInfo : Type := mkTaskInfo {
  task_id : string;
  user_id : string;
  session_id : string;
  task : string;
  status : string;
  steps_completed : Z;
  created_at : datetime;
  max_steps : option Z;
  model : option string;
  completed_at : option datetime;
  error_message : option string;
  result : option string
}.

#[global] Instance TaskInfo_eq_dec : EqDecision TaskInfo.
Proof. solve_decision. Defined.

(** [task_info.update({"status": s, "completed_at": now})] *)
Definition update_status_completed (s : string) (now : datetime) (t : TaskInfo)
  : TaskInfo :=
  mkTaskInfo (task_id t) (user_id t) (session_id t) (task t) s
    (steps_completed t) (created_at t) (max_steps t) (model t)
    (Some now) (error_message t) (result t).

(** An [Agent] as far as [cancel_task] looks at it: whether it has a
    [state] attribute, and the flag [state.stopped]. *)
Record AgentState : Type := mkAgentState { stopped : bool }.
Record Agent : Type := mkAgent { state : option AgentState }.

(** The module-level dicts [active_tasks] and [task_agents]. *)
Record Globals : Type := mkGlobals {
  active_tasks : gmap string TaskInfo;
  task_agents : gmap string Agent
}.

(** [execute_task]. The generated task id and the default session id
    come from the clock and [uuid4]; they are arguments here. Handing
    the task to [background_tasks] changes neither dict. *)
Definition user_active_tasks (uid : string) (g : Globals) : list TaskInfo :=
  filter (λ t, user_id t = uid ∧ status t = "running")
         (snd <$> map_to_list (active_tasks g)).

Definition queued_message (uid : string) : string :=
  "Task in coda per utente " +:+ uid.

Definition conflict_detail (uid : string) : string :=
  "Utente " +:+ uid +:+ " ha già un task attivo. Completare o cancellare prima.".

(** A handler either raises an [HTTPException] or returns; in both
    cases it leaves the module-level dicts in some state. *)
Definition outcome (A : Type) : Type := (HTTPException + A) * Globals.

Definition execute_task (now : datetime) (new_task_id default_session_id : string)
    (request : TaskRequest) (g : Globals) : outcome TaskResponse :=
  let session_id :=
    if truthy (req_session_id request)
    then default default_session_id (req_session_id request)
    else default_session_id in
  match user_active_tasks (req_user_id request) g with
  | _ :: _ =>
      (inl (mkHTTPException 409 (conflict_detail (req_user_id request))), g)
  | [] =>
      let info :=
        mkTaskInfo new_task_id (req_user_id request) session_id
          (req_task request) "queued" 0 now (req_max_steps request)
          (req_model request) None None None in
      (inr (mkTaskResponse true new_task_id (req_user_id request) session_id
              (queued_message (req_user_id request))),
       mkGlobals (<[new_task_id := info]> (active_tasks g)) (task_agents g))
  end.

(** [run_agent_task] up to its first [await]: the background task
    marks its record running. *)
Definition run_agent_task_start (tid : string) (g : Globals) : Globals :=
  match active_tasks g !! tid with
  | None => g
  | Some task_info =>
      mkGlobals
        (<[tid := mkTaskInfo (task_id task_info) (user_id task_info)
                    (session_id task_info) (task task_info) "running"
                    (steps_completed task_info) (created_at task_info)
                    (max_steps task_info) (model task_info)
                    (completed_at task_info) (error_message task_info)
                    (result task_info)]> (active_tasks g))
        (task_agents g)
  end.

(** [cancel_task] *)
Definition stop_agent (a : Agent) : Agent :=
  match state a with
  | Some _ => mkAgent (Some (mkAgentState true))
  | None => a
  end.

Definition cancelled_message (tid : string) : string :=
  "Task " +:+ tid +:+ " cancellato".

Definition cancel_task (now : datetime) (tid : string) (g : Globals)
  : outcome (bool * string) :=
  match active_tasks g !! tid with
  | None => (inl (mkHTTPException 404 "Task non trovato"), g)
  | Some task_info =>
      if bool_decide (status task_info ∉ ["queued"; "running"]) then
        (inl (mkHTTPException 400 "Task non può essere cancellato"), g)
      else
        let agents :=
          match task_agents g !! tid with
          | Some agent => <[tid := stop_agent agent]> (task_agents g)
          | None => task_agents g
          end in
        (inr (true, cancelled_message tid),
         mkGlobals
           (<[tid := update_status_completed "cancelled" now task_info]>
              (active_tasks g))
           agents)
  end.

(** A request of the user alice with the default step bound and model,
    for the scenarios. *)
Definition alice_request : TaskRequest :=
  mkTaskRequest "open example.com" "alice" None (Some 30) (Some "gpt-4o-mini").

(** The statuses the specification calls terminal, as the strings of
    [active_tasks]. *)
Definition terminal (s : string) : Prop :=
  s ∈ ["completed"; "error"; "cancelled"; "stalled"].

(** [UserSessionManager] over the module-level dict [user_sessions].
    Building the profile, constructing the [BrowserSession] and starting
    it belong to the browser library: [create uid] is the started
    session, or [None] when one of these steps raises, and [close s]
    tells whether [s.close()] returns.

    [get_or_create_session] tests the dict, and for a user without a
    session awaits [session.start()] before it stores the session: other
    handlers run in between. [during] is what they do to [user_sessions]
    while the call is suspended; the store and the return that follows
    it act on the dict as they left it. A call that finds a session
    returns it without suspending. *)
Definition get_or_create_session_among {S : Type} (create : string → option S)
    (during : gmap string S → gmap string S)
    (uid : string) (user_sessions : gmap string S)
  : option S * gmap string S :=
  match user_sessions !! uid with
  | Some session => (Some session, user_sessions)
  | None =>
      match create uid with
      | Some session =>
          (Some session, <[uid := session]> (during user_sessions))
      | None => (None, during user_sessions)
      end
  end.

(** The call when no other handler runs while it is suspended. *)
Definition get_or_create_session {S : Type} (create : string → option S)
    (uid : string) (user_sessions : gmap string S)
  : option S * gmap string S :=
  get_or_create_session_among create (λ sessions, sessions) uid user_sessions.

Definition cleanup_session {S : Type} (close : S → bool)
    (uid : string) (user_sessions : gmap string S) : gmap string S :=
  match user_sessions !! uid with
  | Some session =>
      if close session then delete uid user_sessions else user_sessions
  | None => user_sessions
  end.

(** [run_agent_task] after its first [await]. The agent is recorded in
    [task_agents]. The [try] block ends in one of three ways: every step
    has returned, [agent.run()] and the writing of the history file
    among them, and the record is marked completed; a step has raised an
    [Exception], which the [except] branch records as an error; or a
    step has raised an exception that is no [Exception], such as the
    [asyncio.CancelledError] of a cancelled background task, which no
    branch catches and which leaves the record as it is. The [finally]
    block drops the agent in the three cases. No handler removes a key
    of [active_tasks], so the record fetched at the start of the task is
    the one stored under [tid]. *)
Inductive run_result : Type :=
  | RunReturned (result : string)
  | RunRaised (error : string)
  | RunInterrupted.

Definition run_agent_task_agent (tid : string) (agent : Agent) (g : Globals)
  : Globals :=
  mkGlobals (active_tasks g) (<[tid := agent]> (task_agents g)).

Definition finished_info (now : datetime) (r : run_result) (t : TaskInfo)
  : TaskInfo :=
  match r with
  | RunReturned res =>
      mkTaskInfo (task_id t) (user_id t) (session_id t) (task t) "completed"
        (steps_completed t) (created_at t) (max_steps t) (model t)
        (Some now) (error_message t) (Some res)
  | RunRaised e =>
      mkTaskInfo (task_id t) (user_id t) (session_id t) (task t) "error"
        (steps_completed t) (created_at t) (max_steps t) (model t)
        (Some now) (Some e) (result t)
  | RunInterrupted => t
  end.

Definition run_agent_task_end (now : datetime) (tid : string) (r : run_result)
    (g : Globals) : Globals :=
  let tasks :=
    match active_tasks g !! tid with
    | Some task_info => <[tid := finished_info now r task_info]> (active_tasks g)
    | None => active_tasks g
    end in
  mkGlobals tasks (delete tid (task_agents g)).

End Server.

(** * Properties of the monitor *)

Section monitor_lookup.
Import Monitoring.
Implicit Types (self : TaskMonitor) (m metrics : TaskMetrics).
Implicit Types (tid : string) (now : datetime).

Lemma lookup_store tid tid' m self :
  task_metrics (store tid m self) !! tid'
  = if decide (tid = tid') then Some m else task_metrics self !! tid'.
Proof. unfold store; simpl. apply lookup_insert. Qed.

Lemma register_task_lookup now tid uid max_steps self tid' :
  task_metrics (register_task now tid uid max_steps self) !! tid'
  = if decide (tid = tid') then Some (new_metrics now tid uid max_steps)
    else task_metrics self !! tid'.
Proof. apply lookup_store. Qed.

Lemma update_task_status_lookup now tid st steps err self tid' :
  task_metrics (update_task_status now tid st steps err self) !! tid'
  = if decide (tid = tid')
    then status_update now st steps err <$> task_metrics self !! tid'
    else task_metrics self !! tid'.
Proof.
  unfold update_task_status.
  destruct (task_metrics self !! tid) as [metrics|] eqn:E.
  - rewrite lookup_store. case_decide; [subst; by rewrite E | done].
  - case_decide; [subst; by rewrite E | done].
Qed.

Lemma update_task_progress_lookup now tid steps self tid' :
  task_metrics (update_task_progress now tid steps self) !! tid'
  = if decide (tid = tid')
    then progress_update now steps <$> task_metrics self !! tid'
    else task_metrics self !! tid'.
Proof.
  unfold update_task_progress.
  destruct (task_metrics self !! tid) as [metrics|] eqn:E.
  - destruct (steps_completed metrics <? steps) eqn:Hlt.
    + rewrite lookup_store. case_decide; [subst; by rewrite E | done].
    + case_decide; [subst | done]. rewrite E; simpl.
      unfold progress_update. by rewrite Hlt.
  - case_decide; [subst; by rewrite E | done].
Qed.

(** The settings of the monitor are never written. *)
Lemma same_settings_refl self : same_settings self self.
Proof. by repeat split. Qed.

Lemma same_settings_trans self1 self2 self3 :
  same_settings self1 self2 → same_settings self2 self3 →
  same_settings self1 self3.
Proof. unfold same_settings. intros (?&?&?) (?&?&?). repeat split; congruence. Qed.

Lemma update_task_status_settings now tid st steps err self :
  same_settings self (update_task_status now tid st steps err self).
Proof.
  unfold update_task_status.
  destruct (task_metrics self !! tid); by repeat split.
Qed.

Lemma check_task_settings now tid metrics self :
  same_settings self (check_task now tid metrics self).
Proof.
  unfold check_task. case_bool_decide; [apply same_settings_refl|].
  destruct (last_activity metrics); [|apply same_settings_refl].
  simpl. destruct (total_seconds_gt _ _); [|apply same_settings_refl].
  destruct (_ <=? _); [|by repeat split].
  eapply same_settings_trans; [|apply update_task_status_settings].
  by repeat split.
Qed.

(** One iteration of the stall scan rewrites the record of its own key
    and no other. *)
Lemma check_task_lookup now tid metrics self tid' :
  task_metrics self !! tid = Some metrics →
  task_metrics (check_task now tid metrics self) !! tid'
  = if decide (tid = tid')
    then Some (stall_check (stall_timeout self) (max_stall_checks self) now metrics)
    else task_metrics self !! tid'.
Proof.
  intros Hm. unfold check_task, stall_check.
  case_bool_decide; [case_decide; [subst; done | done]|].
  destruct (last_activity metrics) as [la|]; [|case_decide; [subst; done | done]].
  simpl. destruct (total_seconds_gt _ _); [|case_decide; [subst; done | done]].
  destruct (_ <=? _).
  - rewrite update_task_status_lookup, lookup_store.
    by case_decide.
  - by rewrite lookup_store.
Qed.

(** The scan over a part [scanned] of the registry has rewritten the
    records of [scanned] and left the others. *)
Lemma check_task_fold now self (scanned : gmap string TaskMetrics) :
  same_settings self (map_fold (check_task now) self scanned)
  ∧ (scanned ⊆ task_metrics self →
     ∀ tid, task_metrics (map_fold (check_task now) self scanned) !! tid
            = match scanned !! tid with
              | Some x => Some (stall_check (stall_timeout self)
                                  (max_stall_checks self) now x)
              | None => task_metrics self !! tid
              end).
Proof.
  apply (map_fold_weak_ind
    (λ r (seen : gmap string TaskMetrics),
       same_settings self r
       ∧ (seen ⊆ task_metrics self →
          ∀ tid, task_metrics r !! tid
                 = match seen !! tid with
                   | Some x => Some (stall_check (stall_timeout self)
                                       (max_stall_checks self) now x)
                   | None => task_metrics self !! tid
                   end))).
  - split; [apply same_settings_refl|]. intros _ tid. by rewrite lookup_empty.
  - intros i x seen r Hi [Hs IH]. split.
    { eapply same_settings_trans; [exact Hs | apply check_task_settings]. }
    intros Hsub tid.
    assert (seen ⊆ task_metrics self) as Hsub'.
    { etrans; [|exact Hsub]. by apply insert_subseteq. }
    assert (task_metrics self !! i = Some x) as Hx.
    { eapply lookup_weaken; [|exact Hsub]. apply lookup_insert_eq. }
    assert (task_metrics r !! i = Some x) as Hr.
    { rewrite IH by done. by rewrite Hi. }
    rewrite (check_task_lookup _ _ _ _ _ Hr).
    destruct Hs as (-> & -> & _).
    rewrite lookup_insert. case_decide; [done|]. by apply IH.
Qed.

Lemma check_stalled_tasks_lookup now self tid :
  task_metrics (check_stalled_tasks now self) !! tid
  = stall_check (stall_timeout self) (max_stall_checks self) now
      <$> task_metrics self !! tid.
Proof.
  unfold check_stalled_tasks.
  destruct (check_task_fold now self (task_metrics self)) as [_ Hl].
  rewrite Hl by done. by destruct (task_metrics self !! tid).
Qed.

Lemma check_stalled_tasks_settings now self :
  same_settings self (check_stalled_tasks now self).
Proof. apply check_task_fold. Qed.

(** Retention cleanup. *)
Lemma lookup_foldl_delete (l : list string) (r : gmap string TaskMetrics) tid :
  foldl (λ r tid, delete tid r) r l !! tid
  = if decide (tid ∈ l) then None else r !! tid.
Proof.
  revert r. induction l as [|a l IH]; intros r.
  - destruct (decide (tid ∈ [])) as [Hin|_]; [by apply elem_of_nil in Hin | done].
  - change (foldl (λ r tid, delete tid r) (delete a r) l !! tid
            = if decide (tid ∈ a :: l) then None else r !! tid).
    rewrite IH.
    destruct (decide (tid ∈ l)) as [Hin|Hnin];
      destruct (decide (tid ∈ a :: l)) as [Hin'|Hnin']; try done.
    + exfalso. apply Hnin'. by right.
    + apply elem_of_cons in Hin' as [->|?]; [apply lookup_delete_eq | done].
    + apply lookup_delete_ne. intros ->. apply Hnin'. by left.
Qed.

Lemma elem_of_to_remove now self tid :
  tid ∈ to_remove now self
  ↔ ∃ m, task_metrics self !! tid = Some m ∧ removable now m = true.
Proof.
  unfold to_remove. rewrite list_elem_of_fmap. split.
  - intros ([k m] & -> & Hin). apply list_elem_of_filter in Hin as [Hr Hin].
    apply elem_of_map_to_list in Hin. eauto.
  - intros (m & Hm & Hr). exists (tid, m). split; [done|].
    apply list_elem_of_filter. split; [done|]. by apply elem_of_map_to_list.
Qed.

Lemma cleanup_old_tasks_lookup now self tid :
  task_metrics (cleanup_old_tasks now self) !! tid
  = match task_metrics self !! tid with
    | Some m => if removable now m then None else Some m
    | None => None
    end.
Proof.
  unfold cleanup_old_tasks; simpl. rewrite lookup_foldl_delete.
  destruct (decide (tid ∈ to_remove now self)) as [Hin|Hnin].
  - apply elem_of_to_remove in Hin as (m & -> & ->). done.
  - destruct (task_metrics self !! tid) as [m|] eqn:E; [|done].
    destruct (removable now m) eqn:Hr; [|done].
    exfalso. apply Hnin, elem_of_to_remove. eauto.
Qed.

Lemma exec_settings c self : same_settings self (exec c self).
Proof.
  destruct c as [now t uid ms|now t st steps err|now t steps|now|now];
    cbn [exec].
  - by repeat split.
  - apply update_task_status_settings.
  - unfold update_task_progress.
    destruct (task_metrics self !! t) as [metrics|]; [|by repeat split].
    destruct (_ <? _); by repeat split.
  - apply check_stalled_tasks_settings.
  - by repeat split.
Qed.

Lemma run_snoc cs c self : run (cs ++ [c]) self = exec c (run cs self).
Proof. unfold run. by rewrite foldl_app. Qed.

Lemma run_cons c cs self : run (c :: cs) self = run cs (exec c self).
Proof. done. Qed.


Lemma run_settings cs self : same_settings self (run cs self).
Proof.
  revert self. induction cs as [|c cs IH]; intros self.
  - apply same_settings_refl.
  - rewrite run_cons. eapply same_settings_trans; [apply exec_settings | apply IH].
Qed.

(** What a call does to the record stored under [tid], when it leaves
    one: the record it was, transformed by [f]. *)
Lemma exec_lookup_Some c self tid m' :
  task_metrics (exec c self) !! tid = Some m' →
  (∃ now uid max_steps, c = Register now tid uid max_steps
                        ∧ m' = new_metrics now tid uid max_steps)
  ∨ ∃ m, task_metrics self !! tid = Some m
         ∧ (m' = m
            ∨ (∃ now st steps err, c = UpdateStatus now tid st steps err
                                   ∧ m' = status_update now st steps err m)
            ∨ (∃ now steps, c = UpdateProgress now tid steps
                            ∧ m' = progress_update now steps m)
            ∨ (∃ now, c = CheckStalled now
                      ∧ m' = stall_check (stall_timeout self)
                               (max_stall_checks self) now m)).
Proof.
  destruct c as [now t uid ms|now t st steps err|now t steps|now|now];
    cbn [exec].
  - rewrite register_task_lookup. case_decide; subst; intros Hm.
    + injection Hm as <-. left. by exists now, uid, ms.
    + right. eauto.
  - rewrite update_task_status_lookup. case_decide; subst; intros Hm.
    + apply fmap_Some in Hm as (m & Hm & ->). right. exists m.
      split; [done|]. right; left. by exists now, st, steps, err.
    + right. eauto.
  - rewrite update_task_progress_lookup. case_decide; subst; intros Hm.
    + apply fmap_Some in Hm as (m & Hm & ->). right. exists m.
      split; [done|]. right; right; left. by exists now, steps.
    + right. eauto.
  - rewrite check_stalled_tasks_lookup. intros Hm.
    apply fmap_Some in Hm as (m & Hm & ->). right. exists m.
    split; [done|]. right; right; right. by exists now.
  - rewrite cleanup_old_tasks_lookup. intros Hm.
    destruct (task_metrics self !! tid) as [m|]; [|done].
    destruct (removable now m); [done|]. injection Hm as <-.
    right. exists m. split; [done | by left].
Qed.

(** The fields of a record after each of the three record updates. *)
Ltac status_update_fields steps err st m :=
  let Hs := fresh "Hs" in
  unfold status_update;
  destruct steps, (truthy err),
    (bool_decide (st = RUNNING ∧ status m = QUEUED)),
    (bool_decide (st ∈ [COMPLETED; ERROR; CANCELLED])),
    (started_at m) eqn:Hs;
  simpl; rewrite ?Hs; done.

Lemma status_update_status now st steps err m :
  status (status_update now st steps err m) = st.
Proof. status_update_fields steps err st m. Qed.

Lemma status_update_last_activity now st steps err m :
  last_activity (status_update now st steps err m) = Some now.
Proof. status_update_fields steps err st m. Qed.

Lemma status_update_steps_completed now st steps err m :
  steps_completed (status_update now st steps err m)
  = default (steps_completed m) steps.
Proof. status_update_fields steps err st m. Qed.

Lemma status_update_stall_count now st steps err m :
  stall_count (status_update now st steps err m) = stall_count m.
Proof. status_update_fields steps err st m. Qed.

Lemma status_update_error_message now st steps err m :
  error_message (status_update now st steps err m)
  = if truthy err then err else error_message m.
Proof. status_update_fields steps err st m. Qed.

Lemma status_update_completed_at now st steps err m :
  completed_at (status_update now st steps err m)
  = if bool_decide (st ∈ [COMPLETED; ERROR; CANCELLED]) then Some now
    else completed_at m.
Proof.
  unfold status_update.
  destruct (bool_decide (st = RUNNING ∧ _)) eqn:Hr.
  - apply bool_decide_eq_true in Hr as [-> _].
    change (bool_decide (RUNNING ∈ [COMPLETED; ERROR; CANCELLED])) with false.
    by destruct steps, (truthy err).
  - destruct steps, (truthy err), (bool_decide (st ∈ _)),
      (started_at m) eqn:Hs; simpl; rewrite ?Hs; done.
Qed.

Lemma progress_update_steps_completed now steps m :
  steps_completed (progress_update now steps m)
  = Z.max (steps_completed m) steps.
Proof.
  unfold progress_update.
  destruct (steps_completed m <? steps) eqn:Hlt; simpl.
  - apply Z.ltb_lt in Hlt. lia.
  - apply Z.ltb_ge in Hlt. lia.
Qed.

Lemma progress_update_status now steps m :
  status (progress_update now steps m) = status m.
Proof. unfold progress_update. by destruct (_ <? _). Qed.

Lemma progress_update_completed_at now steps m :
  completed_at (progress_update now steps m) = completed_at m.
Proof. unfold progress_update. by destruct (_ <? _). Qed.

Lemma stall_check_not_running t k now m :
  status m ≠ RUNNING → stall_check t k now m = m.
Proof. intros H. unfold stall_check. by rewrite bool_decide_eq_true_2. Qed.


Lemma stall_check_completed_at t k now m :
  completed_at (stall_check t k now m) = completed_at m.
Proof.
  unfold stall_check. case_bool_decide; [done|].
  destruct (last_activity m); [|done]. simpl.
  destruct (total_seconds_gt _ _); [|done].
  destruct (_ <=? _); [|done].
  by rewrite status_update_completed_at.
Qed.

(** The stall scan writes no status but [STALLED], and that only over
    [RUNNING]. *)
Lemma stall_check_status t k now m :
  status (stall_check t k now m) = status m
  ∨ (status m = RUNNING ∧ status (stall_check t k now m) = STALLED).
Proof.
  unfold stall_check. case_bool_decide as Hr; [by left|].
  destruct (last_activity m); [|by left]. simpl.
  destruct (total_seconds_gt _ _); [|by left].
  destruct (_ <=? _); [|by left].
  right. rewrite status_update_status. split; [|done].
  by destruct (decide (status m = RUNNING)).
Qed.

End monitor_lookup.

(** * Progress reports *)

Section progress.
Import Monitoring.

(** Scenario B on the default monitor: submit, begin, then reports of
    1, 3 and 2 steps. *)
Example scenario_B :
  steps_completed <$>
    task_metrics
      (run [Register 0 "t1" "alice" 30;
            UpdateStatus 1000000 "t1" RUNNING None None;
            UpdateProgress 2000000 "t1" 1;
            UpdateProgress 3000000 "t1" 3;
            UpdateProgress 4000000 "t1" 2] default_monitor) !! "t1"
  = Some 3.
Proof. vm_compute. reflexivity. Qed.

(** C6. A progress report on a stored task replaces [steps_completed]
    only when the reported value is strictly greater than the stored
    one; an accepted report also resets [stall_count] to zero and sets
    [last_activity] to the time of the report, and a report that is not
    greater changes nothing. Hence reports of 1, 3 and 2 steps on a task
    with at most 3 steps stored leave 3. *)
Theorem update_task_progress_accepts_only_greater
    (now : datetime) (tid : string) (steps : Z)
    (self : TaskMonitor) (m : TaskMetrics) :
  task_metrics self !! tid = Some m →
  (steps_completed m < steps →
     ∃ m', task_metrics (update_task_progress now tid steps self) !! tid = Some m'
           ∧ steps_completed m' = steps
           ∧ stall_count m' = 0
           ∧ last_activity m' = Some now)
  ∧ (steps ≤ steps_completed m →
       update_task_progress now tid steps self = self)
  ∧ (∀ n1 n2 n3 : datetime,
       steps_completed m ≤ 3 →
       steps_completed <$>
         task_metrics (run [UpdateProgress n1 tid 1; UpdateProgress n2 tid 3;
                            UpdateProgress n3 tid 2] self) !! tid
       = Some 3).
Proof.
  intros Hm. split; [|split].
  - intros Hlt. apply Z.ltb_lt in Hlt.
    exists (progress_update now steps m).
    rewrite update_task_progress_lookup, decide_True, Hm by done.
    unfold progress_update. simpl. rewrite !Hlt. by repeat split.
  - intros Hle. apply Z.ltb_ge in Hle.
    unfold update_task_progress. by rewrite Hm, Hle.
  - intros n1 n2 n3 Hle. cbn [run foldl exec].
    rewrite !update_task_progress_lookup, !decide_True, Hm by done.
    simpl. rewrite !progress_update_steps_completed. f_equal. lia.
Qed.

Lemma update_task_progress_accepts_only_greater_witness :
  let self := run [Register 0 "t1" "alice" 30;
                   UpdateStatus 1000000 "t1" RUNNING None None]
                default_monitor in
  ∃ m, task_metrics self !! "t1" = Some m
       ∧ steps_completed <$>
           task_metrics (run [UpdateProgress 2000000 "t1" 1;
                              UpdateProgress 3000000 "t1" 3;
                              UpdateProgress 4000000 "t1" 2] self) !! "t1"
         = Some 3.
Proof.
  intros self.
  exists (status_update 1000000 RUNNING None None (new_metrics 0 "t1" "alice" 30)).
  assert (task_metrics self !! "t1"
          = Some (status_update 1000000 RUNNING None None
                    (new_metrics 0 "t1" "alice" 30))) as Hm
    by (vm_compute; reflexivity).
  split; [exact Hm|].
  apply (update_task_progress_accepts_only_greater 0 "t1" 0 self _ Hm).
  vm_compute. discriminate.
Defined.




End progress.

(** * Status updates *)

Section status.
Import Monitoring.

(** A property of records that holds of a fresh record and is kept by
    the three record updates holds of every record of a registry reached
    from one where it holds. *)
Lemma run_invariant (P : TaskMetrics → Prop) :
  (∀ now tid uid ms, P (new_metrics now tid uid ms)) →
  (∀ now st steps err m, P m → P (status_update now st steps err m)) →
  (∀ now steps m, P m → P (progress_update now steps m)) →
  (∀ t k now m, P m → P (stall_check t k now m)) →
  ∀ (cs : list call) (self : TaskMonitor),
    (∀ tid m, task_metrics self !! tid = Some m → P m) →
    ∀ tid m, task_metrics (run cs self) !! tid = Some m → P m.
Proof.
  intros Hnew Hst Hpr Hck cs self Hself.
  induction cs as [|c cs IH] using rev_ind; intros tid m Hm.
  - by apply (Hself tid).
  - rewrite run_snoc in Hm.
    apply exec_lookup_Some in Hm
      as [(now & uid & ms & _ & ->) | (m0 & Hm0 & Hcase)]; [apply Hnew|].
    specialize (IH tid m0 Hm0).
    destruct Hcase as [-> | [(now & st & steps & err & _ & ->)
                     | [(now & steps & _ & ->) | (now & _ & ->)]]]; auto.
Qed.

(** A status update of a completed task back to running is taken. *)
Lemma terminal_status_overwritten :
  let self := run [Register 0 "t1" "alice" 30;
                   UpdateStatus 1000000 "t1" RUNNING None None;
                   UpdateStatus 2000000 "t1" COMPLETED None None]
                default_monitor in
  status <$> task_metrics self !! "t1" = Some COMPLETED
  ∧ status <$>
      task_metrics (exec (UpdateStatus 3000000 "t1" RUNNING None None) self)
        !! "t1"
    = Some RUNNING.
Proof. vm_compute. split; reflexivity. Qed.

Lemma terminal_not_cancellable (s : string) :
  Server.terminal s → s ∉ ["queued"; "running"].
Proof.
  unfold Server.terminal. rewrite !elem_of_cons, elem_of_nil.
  intros [->|[->|[->|[->|[]]]]] [?|[?|[]]]; discriminate.
Qed.

(** C2, amended. Once the status of a stored task is terminal, no
    progress report, stall scan or cleanup, and no call on another task,
    changes it, and the server refuses to cancel a task whose status is
    terminal; a status update of the task itself writes the status it is
    given, whatever the stored one. *)
Theorem terminal_status_kept_unless_written
    (self : TaskMonitor) (tid : string) (m : TaskMetrics) :
  task_metrics self !! tid = Some m →
  terminal (status m) →
  (∀ c m', writes_status tid c = false →
           task_metrics (exec c self) !! tid = Some m' →
           status m' = status m)
  ∧ (∀ now st steps err,
       status <$> task_metrics (update_task_status now tid st steps err self) !! tid
       = Some st)
  ∧ (∀ now id g info,
       Server.active_tasks g !! id = Some info →
       Server.terminal (Server.status info) →
       ∃ e, Server.cancel_task now id g = (inl e, g)
            ∧ Server.InvalidStateError e).
Proof.
  intros Hm Hterm. split; [|split].
  - intros c m' Hc Hm'.
    apply exec_lookup_Some in Hm'
      as [(now & uid & ms & -> & _) | (m0 & Hm0 & Hcase)].
    { unfold writes_status in Hc.
      by rewrite bool_decide_eq_true_2 in Hc by done. }
    rewrite Hm in Hm0. injection Hm0 as <-.
    destruct Hcase as [-> | [(now & st & steps & err & -> & ->)
                     | [(now & steps & -> & ->) | (now & -> & ->)]]].
    + done.
    + unfold writes_status in Hc.
      by rewrite bool_decide_eq_true_2 in Hc by done.
    + apply progress_update_status.
    + rewrite stall_check_not_running; [done|].
      intros Hr. rewrite Hr in Hterm. unfold terminal in Hterm.
      repeat (apply elem_of_cons in Hterm as [?|Hterm]; [done|]).
      by apply elem_of_nil in Hterm.
  - intros now st steps err.
    rewrite update_task_status_lookup, decide_True, Hm by done.
    simpl. by rewrite status_update_status.
  - intros now id g info Hg Hinfo.
    exists (Server.mkHTTPException 400 "Task non può essere cancellato").
    split; [|done]. unfold Server.cancel_task. rewrite Hg.
    by rewrite bool_decide_eq_true_2 by by apply terminal_not_cancellable.
Qed.

Lemma terminal_status_kept_unless_written_witness :
  let self := run [Register 0 "t1" "alice" 30;
                   UpdateStatus 1000000 "t1" RUNNING None None;
                   UpdateStatus 2000000 "t1" COMPLETED None None]
                default_monitor in
  status <$> task_metrics (exec (UpdateProgress 3000000 "t1" 7) self) !! "t1"
  = Some COMPLETED.
Proof.
  intros self.
  assert (∃ m, task_metrics self !! "t1" = Some m ∧ status m = COMPLETED)
    as (m & Hm & Hst) by (eexists; split; vm_compute; reflexivity).
  assert (terminal (status m)) as Hterm by (rewrite Hst; by left).
  destruct (terminal_status_kept_unless_written self "t1" m Hm Hterm)
    as [Hkeep _].
  destruct (task_metrics (exec (UpdateProgress 3000000 "t1" 7) self) !! "t1")
    as [m'|] eqn:Hm'.
  - simpl. f_equal. rewrite <- Hst.
    exact (Hkeep (UpdateProgress 3000000 "t1" 7) m' eq_refl Hm').
  - exfalso. revert Hm'. vm_compute. discriminate.
Defined.

(** ** Finishing a task twice *)

(** A second status update to completed, one second after the first,
    leaves another record: the completion time has moved. *)
Lemma second_finish_changes_record :
  let once := run [Register 0 "t1" "alice" 30;
                   UpdateStatus 1000000 "t1" RUNNING None None;
                   UpdateStatus 2000000 "t1" COMPLETED None None]
                default_monitor in
  let twice := exec (UpdateStatus 3000000 "t1" COMPLETED None None) once in
  task_metrics twice !! "t1" ≠ task_metrics once !! "t1"
  ∧ completed_at <$> task_metrics once !! "t1" = Some (Some 2000000)
  ∧ completed_at <$> task_metrics twice !! "t1" = Some (Some 3000000).
Proof.
  intros once twice. split; [|split; vm_compute; reflexivity].
  vm_compute. discriminate.
Qed.

Lemma status_update_twice n1 n2 st steps err m :
  st ∈ [COMPLETED; ERROR] →
  status_update n2 st steps err (status_update n1 st steps err m)
  = status_update n2 st steps err m.
Proof.
  rewrite !elem_of_cons, elem_of_nil. intros [->|[->|[]]];
    unfold status_update; simpl;
    destruct steps, (truthy err) eqn:Herr, (started_at m) eqn:Hs;
    simpl; rewrite ?Herr, ?Hs; simpl; rewrite ?Hs; reflexivity.
Qed.

Lemma store_store tid m1 m2 self :
  store tid m2 (store tid m1 self) = store tid m2 self.
Proof.
  unfold store, set_task_metrics; simpl. by rewrite insert_insert_eq.
Qed.

Lemma update_task_status_twice n1 n2 tid st steps err self :
  st ∈ [COMPLETED; ERROR] →
  update_task_status n2 tid st steps err
    (update_task_status n1 tid st steps err self)
  = update_task_status n2 tid st steps err self.
Proof.
  intros Hst. unfold update_task_status.
  destruct (task_metrics self !! tid) as [m|] eqn:Hm.
  - rewrite lookup_store, decide_True by done.
    by rewrite store_store, status_update_twice.
  - by rewrite Hm.
Qed.

(** C7, amended. Applying the terminal transition (to completed or
    error) a second time is not a no-op: the second call sets
    [last_activity] and [completed_at] to its own time and computes the
    duration again, so that two calls leave the registry as a single
    call made at the time of the second does; the status, the step
    count, the error message, the start time and the stall count are as
    the first call left them, and the second call changes nothing when
    the clock has not moved. *)
Theorem finish_twice_as_once_at_second_time
    (n1 n2 : datetime) (tid : string) (st : TaskStatus)
    (steps : option Z) (err : option string) (self : TaskMonitor) :
  st ∈ [COMPLETED; ERROR] →
  let once := update_task_status n1 tid st steps err self in
  let twice := update_task_status n2 tid st steps err once in
  twice = update_task_status n2 tid st steps err self
  ∧ (n1 = n2 → twice = once)
  ∧ (∀ m1, task_metrics once !! tid = Some m1 →
       ∃ m2, task_metrics twice !! tid = Some m2
             ∧ status m2 = status m1
             ∧ steps_completed m2 = steps_completed m1
             ∧ error_message m2 = error_message m1
             ∧ started_at m2 = started_at m1
             ∧ stall_count m2 = stall_count m1
             ∧ last_activity m2 = Some n2
             ∧ completed_at m2 = Some n2).
Proof.
  intros Hst once twice. split; [|split].
  - by apply update_task_status_twice.
  - intros ->. by apply update_task_status_twice.
  - intros m1 Hm1. subst twice.
    rewrite update_task_status_lookup, decide_True, Hm1 by done.
    eexists; split; [reflexivity|].
    subst once. rewrite update_task_status_lookup, decide_True in Hm1 by done.
    apply fmap_Some in Hm1 as (m & _ & ->).
    rewrite status_update_twice by done.
    rewrite !status_update_status, !status_update_steps_completed,
      !status_update_error_message, !status_update_stall_count,
      !status_update_last_activity, !status_update_completed_at.
    rewrite !elem_of_cons, elem_of_nil in Hst.
    destruct Hst as [->|[->|[]]]; unfold status_update; simpl;
      destruct steps, (truthy err), (started_at m) eqn:Hs;
      simpl; rewrite ?Hs; by repeat split.
Qed.

Lemma finish_twice_as_once_at_second_time_witness :
  let self := run [Register 0 "t1" "alice" 30;
                   UpdateStatus 1000000 "t1" RUNNING None None]
                default_monitor in
  update_task_status 3000000 "t1" COMPLETED None None
    (update_task_status 2000000 "t1" COMPLETED None None self)
  = update_task_status 3000000 "t1" COMPLETED None None self.
Proof.
  intros self.
  apply (finish_twice_as_once_at_second_time
           2000000 3000000 "t1" COMPLETED None None self).
  by left.
Defined.

End status.

(** * Completion time and retention *)

Section retention.
Import Monitoring.

(** Scenario C on the default monitor, with the ticks one second after
    each minute: the third tick marks the task stalled, with a message
    and without a completion time. *)
Lemma stalled_without_completed_at :
  let self := run [Register 0 "t1" "alice" 30;
                   UpdateStatus 0 "t1" RUNNING None None;
                   CheckStalled 61000000;
                   CheckStalled 121000000;
                   CheckStalled 181000000] default_monitor in
  status <$> task_metrics self !! "t1" = Some STALLED
  ∧ error_message <$> task_metrics self !! "t1"
    = Some (Some "Task stalled dopo 181s di inattività")
  ∧ completed_at <$> task_metrics self !! "t1" = Some None.
Proof. vm_compute. repeat split; reflexivity. Qed.

Lemma stalled_message_truthy inactive :
  truthy (Some (stalled_message inactive)) = true.
Proof. reflexivity. Qed.

Lemma exec_completed_at (tid : string) (c : call) (self : TaskMonitor)
    (b : bool) (m' : TaskMetrics) :
  (∀ m, task_metrics self !! tid = Some m →
        (is_Some (completed_at m) ↔ b = true)) →
  task_metrics (exec c self) !! tid = Some m' →
  (is_Some (completed_at m') ↔ finishing_step tid b c = true).
Proof.
  intros IH.
  destruct c as [now t uid ms|now t st steps err|now t steps|now|now];
    cbn [exec finishing_step].
  - rewrite register_task_lookup. case_decide as Ht.
    + intros [= <-]. rewrite bool_decide_eq_true_2 by done. simpl.
      split; [by intros [? ?] | done].
    + rewrite bool_decide_eq_false_2 by done. apply IH.
  - rewrite update_task_status_lookup. case_decide as Ht.
    + subst t. rewrite bool_decide_eq_true_2 by done. cbn [andb].
      intros Hm'. apply fmap_Some in Hm' as (m & Hm & ->).
      rewrite status_update_completed_at.
      destruct (bool_decide (st ∈ [COMPLETED; ERROR; CANCELLED]));
        [by split; [|eexists] | by apply IH].
    + rewrite bool_decide_eq_false_2 by done. cbn [andb]. apply IH.
  - rewrite update_task_progress_lookup. case_decide as Ht; [|apply IH].
    subst t. intros Hm'. apply fmap_Some in Hm' as (m & Hm & ->).
    rewrite progress_update_completed_at. by apply IH.
  - rewrite check_stalled_tasks_lookup.
    intros Hm'. apply fmap_Some in Hm' as (m & Hm & ->).
    rewrite stall_check_completed_at. by apply IH.
  - rewrite cleanup_old_tasks_lookup.
    destruct (task_metrics self !! tid) as [m|] eqn:Hm; [|done].
    destruct (removable now m); [done|]. intros [= <-]. by apply IH.
Qed.

Lemma completed_at_iff_finished (cs : list call) (t k ci : Z) tid m :
  task_metrics (run cs (init t k ci)) !! tid = Some m →
  (is_Some (completed_at m) ↔ finished_since_registration tid cs = true).
Proof.
  revert m. induction cs as [|c cs IH] using rev_ind; intros m Hm.
  - unfold run, init in Hm. simpl in Hm. by rewrite lookup_empty in Hm.
  - rewrite run_snoc in Hm. unfold finished_since_registration.
    rewrite foldl_app. cbn [foldl].
    by apply (exec_completed_at tid c (run cs (init t k ci))).
Qed.

(** C4, amended. In every registry reached from an empty monitor,
    [completed_at] of a task is set if and only if the task has
    received, since it was registered, a status update to completed,
    error or cancelled; so it is set whenever the status is one of these
    three. The monitor's transition of a running task to stalled sets a
    non-empty error message and leaves [completed_at] as it was: a
    stalled record has a completion time only if it had one before. *)
Theorem completed_at_set_iff_finished
    (cs : list call) (t k ci : Z) (tid : string) (m : TaskMetrics) :
  task_metrics (run cs (init t k ci)) !! tid = Some m →
  (is_Some (completed_at m) ↔ finished_since_registration tid cs = true)
  ∧ (status m ∈ [COMPLETED; ERROR; CANCELLED] → is_Some (completed_at m))
  ∧ (∀ now,
       status m = RUNNING →
       status (stall_check t k now m) = STALLED →
       completed_at (stall_check t k now m) = completed_at m
       ∧ ∃ msg, error_message (stall_check t k now m) = Some msg
                ∧ msg ≠ EmptyString).
Proof.
  intros Hm. split; [by apply (completed_at_iff_finished cs t k ci)|]. split.
  - revert tid m Hm.
    apply (run_invariant
             (λ m, status m ∈ [COMPLETED; ERROR; CANCELLED]
                   → is_Some (completed_at m))).
    + intros now tid uid ms Hin. cbn in Hin.
      repeat (apply elem_of_cons in Hin as [?|Hin]; [done|]).
      by apply elem_of_nil in Hin.
    + intros now st steps err m _.
      rewrite status_update_status, status_update_completed_at.
      intros Hin. by rewrite bool_decide_eq_true_2.
    + intros now steps m.
      by rewrite progress_update_status, progress_update_completed_at.
    + intros t' k' now m IH. rewrite stall_check_completed_at.
      destruct (stall_check_status t' k' now m) as [-> | [_ ->]]; [done|].
      intros Hin.
      repeat (apply elem_of_cons in Hin as [?|Hin]; [done|]).
      by apply elem_of_nil in Hin.
    + intros tid m. unfold init; simpl. by rewrite lookup_empty.
  - intros now Hrun Hst. split; [apply stall_check_completed_at|].
    revert Hst. unfold stall_check.
    rewrite bool_decide_eq_false_2 by (intros Hne; by apply Hne).
    destruct (last_activity m) as [la|]; [|by rewrite Hrun].
    simpl. destruct (total_seconds_gt _ _); [|by rewrite Hrun].
    destruct (_ <=? _); [|simpl; by rewrite Hrun].
    intros _. rewrite status_update_error_message, stalled_message_truthy.
    eexists; split; [reflexivity|]. discriminate.
Qed.

Lemma completed_at_set_iff_finished_witness :
  (∃ m, task_metrics
          (run [Register 0 "t1" "alice" 30;
                UpdateStatus 1000000 "t1" RUNNING None None;
                UpdateStatus 2000000 "t1" CANCELLED None None]
             (init 60 3 300)) !! "t1" = Some m
        ∧ is_Some (completed_at m))
  ∧ (∃ m, task_metrics
            (run [Register 0 "t1" "alice" 30;
                  UpdateStatus 0 "t1" RUNNING None None;
                  CheckStalled 61000000;
                  CheckStalled 121000000;
                  CheckStalled 181000000]
               (init 60 3 300)) !! "t1" = Some m
          ∧ ¬ is_Some (completed_at m)).
Proof.
  split.
  - eexists. split; [vm_compute; reflexivity|].
    apply (completed_at_set_iff_finished
             [Register 0 "t1" "alice" 30;
              UpdateStatus 1000000 "t1" RUNNING None None;
              UpdateStatus 2000000 "t1" CANCELLED None None]
             60 3 300 "t1").
    + vm_compute; reflexivity.
    + simpl. right; right; left.
  - eexists. split; [vm_compute; reflexivity|].
    intros Hset.
    apply (completed_at_set_iff_finished
             [Register 0 "t1" "alice" 30;
              UpdateStatus 0 "t1" RUNNING None None;
              CheckStalled 61000000;
              CheckStalled 121000000;
              CheckStalled 181000000]
             60 3 300 "t1") in Hset.
    + discriminate Hset.
    + vm_compute; reflexivity.
Defined.

(** A task that was completed, then written back to running and left
    silent, ends stalled with its old completion time; the cleanup two
    hours later keeps it. *)
Lemma old_stalled_record_kept_by_cleanup :
  let self := run [Register 0 "t1" "alice" 30;
                   UpdateStatus 0 "t1" RUNNING None None;
                   UpdateStatus 1000000 "t1" COMPLETED None None;
                   UpdateStatus 2000000 "t1" RUNNING None None;
                   CheckStalled 63000000;
                   CheckStalled 123000000;
                   CheckStalled 183000000] default_monitor in
  status <$> task_metrics self !! "t1" = Some STALLED
  ∧ completed_at <$> task_metrics self !! "t1" = Some (Some 1000000)
  ∧ task_metrics (cleanup_old_tasks 7200000000 self) !! "t1"
    = task_metrics self !! "t1".
Proof. vm_compute. repeat split; reflexivity. Qed.

Lemma removable_spec now m :
  removable now m = true
  ↔ status m ∈ [COMPLETED; ERROR; CANCELLED]
    ∧ ∃ c, completed_at m = Some c ∧ cleanup_age * usec < now - c.
Proof.
  unfold removable, total_seconds_gt. case_bool_decide as Hst.
  - split; [done|]. by intros [? _].
  - destruct (completed_at m) as [c|].
    + rewrite Z.ltb_lt. split.
      * intros Hlt. split; [done|]. by exists c.
      * by intros [_ (c' & [= <-] & Hlt)].
    + split; [done|]. by intros [_ (c' & [=] & _)].
Qed.

(** C5, amended. After a cleanup pass, every record whose status is
    completed, error or cancelled and whose [completed_at] is more than
    one hour old is absent from the registry, and every other record is
    still present, unchanged: the queued and the running ones, the
    stalled ones whatever their age, and those whose [completed_at] is
    unset or at most one hour old. *)
Theorem cleanup_removes_old_finished_only
    (now : datetime) (self : TaskMonitor) (tid : string) (m : TaskMetrics) :
  task_metrics self !! tid = Some m →
  let old_finished :=
    status m ∈ [COMPLETED; ERROR; CANCELLED]
    ∧ ∃ c, completed_at m = Some c ∧ 3600 * usec < now - c in
  (old_finished → task_metrics (cleanup_old_tasks now self) !! tid = None)
  ∧ (¬ old_finished →
       task_metrics (cleanup_old_tasks now self) !! tid = Some m).
Proof.
  intros Hm old_finished. rewrite cleanup_old_tasks_lookup, Hm.
  destruct (removable now m) eqn:Hr.
  - split; [done|]. intros Hn. exfalso. apply Hn. by apply removable_spec.
  - split; [|done]. intros Ho. apply removable_spec in Ho. congruence.
Qed.

Lemma cleanup_removes_old_finished_only_witness :
  let self := run [Register 0 "t1" "alice" 30;
                   UpdateStatus 0 "t1" RUNNING None None;
                   UpdateStatus 1000000 "t1" COMPLETED None None]
                default_monitor in
  task_metrics (cleanup_old_tasks 7200000000 self) !! "t1" = None.
Proof.
  intros self.
  assert (∃ m, task_metrics self !! "t1" = Some m
               ∧ status m = COMPLETED ∧ completed_at m = Some 1000000)
    as (m & Hm & Hst & Hc) by (eexists; repeat split; vm_compute; reflexivity).
  apply (cleanup_removes_old_finished_only 7200000000 self "t1" m Hm).
  split; [rewrite Hst; by left|]. exists 1000000. split; [done|].
  vm_compute. reflexivity.
Defined.

End retention.

(** * Stall escalation *)

Section stall.
Import Monitoring.


(** The stall check of a running record that has been inactive for more
    than the timeout. *)
Lemma stall_check_inactive t k now m la :
  status m = RUNNING → last_activity m = Some la → t * usec < now - la →
  stall_check t k now m
  = if k <=? stall_count m + 1
    then status_update now STALLED None (Some (stalled_message (now - la)))
           (set_stall_count (stall_count m + 1) m)
    else set_stall_count (stall_count m + 1) m.
Proof.
  intros Hst Hla Hlt. unfold stall_check.
  rewrite bool_decide_eq_false_2 by (intros Hne; by apply Hne).
  rewrite Hla. simpl. unfold total_seconds_gt.
  by rewrite (proj2 (Z.ltb_lt _ _) Hlt).
Qed.

(** The stall check of a running record whose last activity is within
    the timeout. *)
Lemma stall_check_active t k now m la :
  last_activity m = Some la → now - la ≤ t * usec →
  stall_check t k now m = m.
Proof.
  intros Hla Hle. unfold stall_check. case_bool_decide; [done|].
  rewrite Hla. simpl. unfold total_seconds_gt.
  by rewrite (proj2 (Z.ltb_ge _ _) Hle).
Qed.





(** Scenario C on the default monitor, with the ticks one second after
    each minute: running after two ticks, stalled at the third. *)
Example scenario_C :
  let started := run [Register 0 "t1" "alice" 30;
                      UpdateStatus 0 "t1" RUNNING None None] default_monitor in
  status <$> task_metrics
               (run (CheckStalled <$> [61000000; 121000000]) started) !! "t1"
  = Some RUNNING
  ∧ status <$> task_metrics
                 (run (CheckStalled <$> [61000000; 121000000; 181000000])
                    started) !! "t1"
    = Some STALLED.
Proof. vm_compute. split; reflexivity. Qed.




(** Every record that has left [QUEUED] carries a last activity. *)
Lemma started_has_last_activity (cs : list call) (t k ci : Z) tid m :
  task_metrics (run cs (init t k ci)) !! tid = Some m →
  status m ≠ QUEUED → is_Some (last_activity m).
Proof.
  revert tid m.
  apply (run_invariant
           (λ m, status m ≠ QUEUED → is_Some (last_activity m))).
  - intros now tid uid ms Hne. by destruct Hne.
  - intros now st steps err m _ _. by rewrite status_update_last_activity.
  - intros now steps m IH. unfold progress_update.
    destruct (_ <? _); [by eexists | done].
  - intros t' k' now m IH. unfold stall_check.
    case_bool_decide; [done|].
    destruct (last_activity m) as [la|] eqn:Hla; [|by rewrite Hla].
    simpl. destruct (total_seconds_gt _ _); [|by rewrite Hla].
    destruct (_ <=? _).
    + by rewrite status_update_last_activity.
    + simpl. by rewrite Hla.
  - intros tid m. unfold init; simpl. by rewrite lookup_empty.
Qed.

(** C10. Every status update of a stored task sets [last_activity] to
    the time of the update. So, in every registry reached from an empty
    monitor, a running task has [last_activity] set and the stall scan
    never skips it; and a task moved to running at time [n0] that
    reports no progress is stall-checked by the next tick against [n0]:
    the tick counts a stall exactly when now - n0 exceeds the
    timeout. *)
Theorem running_task_is_stall_checked
    (cs : list call) (t k ci : Z) (tid : string) (m : TaskMetrics)
    (n0 now : datetime) :
  task_metrics (run cs (init t k ci)) !! tid = Some m →
  (∀ st steps err,
     last_activity <$>
       task_metrics (update_task_status n0 tid st steps err
                       (run cs (init t k ci))) !! tid
     = Some (Some n0))
  ∧ (status m = RUNNING → is_Some (last_activity m))
  ∧ (∃ m1 m2,
       task_metrics (update_task_status n0 tid RUNNING None None
                       (run cs (init t k ci))) !! tid = Some m1
       ∧ status m1 = RUNNING
       ∧ last_activity m1 = Some n0
       ∧ task_metrics
           (check_stalled_tasks now
              (update_task_status n0 tid RUNNING None None
                 (run cs (init t k ci)))) !! tid = Some m2
       ∧ stall_count m2
         = if decide (t * usec < now - n0) then stall_count m + 1
           else stall_count m).
Proof.
  intros Hm. split; [|split].
  - intros st steps err.
    rewrite update_task_status_lookup, decide_True, Hm by done.
    simpl. by rewrite status_update_last_activity.
  - intros Hst. apply (started_has_last_activity cs t k ci tid m Hm).
    by rewrite Hst.
  - set (self := run cs (init t k ci)) in *.
    set (m1 := status_update n0 RUNNING None None m).
    assert (task_metrics (update_task_status n0 tid RUNNING None None self)
              !! tid = Some m1) as Hm1.
    { by rewrite update_task_status_lookup, decide_True, Hm by done. }
    assert (stall_timeout (update_task_status n0 tid RUNNING None None self) = t)
      as Ht.
    { destruct (update_task_status_settings n0 tid RUNNING None None self)
        as (-> & _).
      subst self. by destruct (run_settings cs (init t k ci)) as (-> & _). }
    assert (status m1 = RUNNING) as Hst1 by apply status_update_status.
    assert (last_activity m1 = Some n0) as Hla1
      by apply status_update_last_activity.
    assert (stall_count m1 = stall_count m) as Hc1
      by apply status_update_stall_count.
    exists m1. eexists. split; [exact Hm1|]. split; [exact Hst1|].
    split; [exact Hla1|].
    rewrite check_stalled_tasks_lookup, Hm1, Ht. simpl.
    split; [reflexivity|].
    destruct (decide (t * usec < now - n0)) as [Hlt|Hge].
    + rewrite (stall_check_inactive t _ now m1 n0) by done.
      destruct (_ <=? _).
      * rewrite status_update_stall_count. simpl. lia.
      * simpl. lia.
    + rewrite (stall_check_active t _ now m1 n0) by (done || lia). done.
Qed.

Lemma running_task_is_stall_checked_witness :
  ∃ m2,
    task_metrics
      (check_stalled_tasks 62000000
         (update_task_status 1000000 "t1" RUNNING None None
            (run [Register 0 "t1" "alice" 30] (init 60 3 300)))) !! "t1"
    = Some m2
    ∧ stall_count m2 = 1.
Proof.
  destruct (running_task_is_stall_checked
              [Register 0 "t1" "alice" 30] 60 3 300 "t1"
              (new_metrics 0 "t1" "alice" 30) 1000000 62000000)
    as (_ & _ & (m1 & m2 & _ & _ & _ & Hm2 & Hc)).
  - vm_compute. reflexivity.
  - exists m2. split; [exact Hm2|]. exact Hc.
Defined.

End stall.

(** * Admission and cancellation *)

Section server.
Import Server.

(** A user with a running task is refused, and nothing is recorded. *)
Lemma execute_task_conflict_when_running
    now new_task_id default_session_id request g tid info :
  active_tasks g !! tid = Some info →
  user_id info = req_user_id request →
  status info = "running" →
  ∃ e, execute_task now new_task_id default_session_id request g = (inl e, g)
       ∧ ConflictError e.
Proof.
  intros Hg Hu Hs. unfold execute_task.
  destruct (user_active_tasks (req_user_id request) g) as [|x l] eqn:Hl.
  - exfalso. assert (info ∈ user_active_tasks (req_user_id request) g) as Hin.
    { unfold user_active_tasks. apply list_elem_of_filter. split; [done|].
      apply list_elem_of_fmap. exists (tid, info). split; [done|].
      by apply elem_of_map_to_list. }
    rewrite Hl in Hin. by apply elem_of_nil in Hin.
  - eexists; split; [reflexivity|]. done.
Qed.

(** C1. Scenario A on the server: the first submission of alice is
    queued; her second submission, made while the first is still
    queued, is not refused: it returns a task response and a second
    queued record of alice is stored. *)
Theorem second_submit_admitted_while_first_queued :
  let first :=
    execute_task 1000000 "task-1" "session-alice-1" alice_request
      (mkGlobals ∅ ∅) in
  let second :=
    execute_task 2000000 "task-2" "session-alice-2" alice_request
      (snd first) in
  status <$> active_tasks (snd first) !! "task-1" = Some "queued"
  ∧ fst second
    = inr (mkTaskResponse true "task-2" "alice" "session-alice-2"
             "Task in coda per utente alice")
  ∧ status <$> active_tasks (snd second) !! "task-1" = Some "queued"
  ∧ status <$> active_tasks (snd second) !! "task-2" = Some "queued"
  ∧ user_id <$> active_tasks (snd second) !! "task-1" = Some "alice"
  ∧ user_id <$> active_tasks (snd second) !! "task-2" = Some "alice".
Proof. vm_compute. repeat split; reflexivity. Qed.

(** C8. [cancel_task] answers an unknown task id with a not-found error
    and a task whose status is terminal with an invalid-state error, the
    two dicts unchanged in both cases. For a queued or running task it
    returns at once with the record cancelled and [completed_at] set to
    the time of the call, whatever agent is registered for the task and
    whatever its state; a registered agent is told to stop; no other
    record changes. *)
Theorem cancel_task_outcomes (now : datetime) (tid : string) (g : Globals) :
  (active_tasks g !! tid = None →
     ∃ e, cancel_task now tid g = (inl e, g) ∧ NotFoundError e)
  ∧ (∀ info, active_tasks g !! tid = Some info →
       terminal (status info) →
       ∃ e, cancel_task now tid g = (inl e, g) ∧ InvalidStateError e)
  ∧ (∀ info, active_tasks g !! tid = Some info →
       status info ∈ ["queued"; "running"] →
       ∃ r g' info',
         cancel_task now tid g = (inr r, g')
         ∧ active_tasks g' !! tid = Some info'
         ∧ status info' = "cancelled"
         ∧ completed_at info' = Some now
         ∧ (∀ tid', tid' ≠ tid →
              active_tasks g' !! tid' = active_tasks g !! tid')
         ∧ (∀ agent, task_agents g !! tid = Some agent →
              task_agents g' !! tid = Some (stop_agent agent))).
Proof.
  split; [|split].
  - intros Hg. unfold cancel_task. rewrite Hg.
    eexists; split; [reflexivity|]. done.
  - intros info Hg Hterm. unfold cancel_task. rewrite Hg.
    rewrite bool_decide_eq_true_2 by by apply terminal_not_cancellable.
    eexists; split; [reflexivity|]. done.
  - intros info Hg Hst. unfold cancel_task. rewrite Hg.
    rewrite bool_decide_eq_false_2 by (intros Hn; by apply Hn).
    eexists _, _, _. split; [reflexivity|]. simpl.
    split; [apply lookup_insert_eq|]. split; [done|]. split; [done|].
    split.
    + intros tid' Hne. by apply lookup_insert_ne.
    + intros agent Ha. rewrite Ha. apply lookup_insert_eq.
Qed.

Lemma cancel_task_outcomes_witness :
  let g := run_agent_task_start "task-1"
             (snd (execute_task 1000000 "task-1" "session-alice-1"
                     alice_request (mkGlobals ∅ ∅))) in
  ∃ r g' info',
    cancel_task 5000000 "task-1" g = (inr r, g')
    ∧ active_tasks g' !! "task-1" = Some info'
    ∧ status info' = "cancelled"
    ∧ completed_at info' = Some 5000000.
Proof.
  intros g.
  assert (∃ info, active_tasks g !! "task-1" = Some info
                  ∧ status info = "running")
    as (info & Hg & Hst) by (eexists; split; vm_compute; reflexivity).
  destruct (cancel_task_outcomes 5000000 "task-1" g) as (_ & _ & Hcancel).
  destruct (Hcancel info Hg) as (r & g' & info' & Hr & Hg' & Hs & Hc & _).
  - rewrite Hst. right; left.
  - by exists r, g', info'.
Defined.

End server.

(** * The registry of the monitor *)

Section registry.
Import Monitoring.

(** X1. Registering a task and reading it back: the record is the fresh
    queued one, whatever was stored under the id before; the records of
    the other ids are the ones they were; the registry grows by one
    record exactly when the id is new. *)
Theorem register_task_then_get
    (now : datetime) (tid uid : string) (max_steps : Z) (self : TaskMonitor) :
  get_task_metrics tid (register_task now tid uid max_steps self)
  = Some (mkTaskMetrics tid uid QUEUED 0 max_steps now None None None 0 None 0)
  ∧ (∀ tid', tid' ≠ tid →
       get_task_metrics tid' (register_task now tid uid max_steps self)
       = get_task_metrics tid' self)
  ∧ size (task_metrics (register_task now tid uid max_steps self))
    = if decide (is_Some (task_metrics self !! tid))
      then size (task_metrics self)
      else S (size (task_metrics self)).
Proof.
  unfold get_task_metrics. split; [|split].
  - by rewrite register_task_lookup, decide_True.
  - intros tid' Hne. by rewrite register_task_lookup, decide_False.
  - unfold register_task, store; simpl.
    destruct (decide (is_Some (task_metrics self !! tid))) as [Hs|Hn].
    + by apply map_size_insert_Some.
    + apply map_size_insert_None. by apply eq_None_not_Some.
Qed.

Lemma register_task_then_get_witness :
  get_task_metrics "t2"
    (register_task 5 "t1" "bob" 10 (register_task 0 "t2" "alice" 30 default_monitor))
  = get_task_metrics "t2" (register_task 0 "t2" "alice" 30 default_monitor).
Proof.
  apply (register_task_then_get 5 "t1" "bob" 10
           (register_task 0 "t2" "alice" 30 default_monitor)).
  discriminate.
Defined.

(** X2. A status update or a progress report never adds or removes a task
    id, and on an id that is not registered it changes nothing. *)
Theorem updates_keep_the_task_ids
    (now : datetime) (tid : string) (st : TaskStatus) (steps : option Z)
    (err : option string) (n : Z) (self : TaskMonitor) :
  dom (task_metrics (update_task_status now tid st steps err self))
  = dom (task_metrics self)
  ∧ dom (task_metrics (update_task_progress now tid n self))
    = dom (task_metrics self)
  ∧ (task_metrics self !! tid = None →
       update_task_status now tid st steps err self = self
       ∧ update_task_progress now tid n self = self).
Proof.
  split; [|split].
  - apply set_eq. intros i.
    rewrite !elem_of_dom, update_task_status_lookup.
    case_decide; [|done]. by rewrite fmap_is_Some.
  - apply set_eq. intros i.
    rewrite !elem_of_dom, update_task_progress_lookup.
    case_decide; [|done]. by rewrite fmap_is_Some.
  - intros Hnone. unfold update_task_status, update_task_progress.
    by rewrite Hnone.
Qed.

Lemma updates_keep_the_task_ids_witness :
  update_task_status 7 "ghost" COMPLETED (Some 4) None
    (register_task 0 "t1" "alice" 30 default_monitor)
  = register_task 0 "t1" "alice" 30 default_monitor.
Proof.
  apply (updates_keep_the_task_ids 7 "ghost" COMPLETED (Some 4) None 0
           (register_task 0 "t1" "alice" 30 default_monitor)).
  vm_compute. reflexivity.
Defined.

(** The identity of a record through the three record updates. *)
Lemma status_update_identity now st steps err m :
  task_id (status_update now st steps err m) = task_id m
  ∧ user_id (status_update now st steps err m) = user_id m
  ∧ steps_target (status_update now st steps err m) = steps_target m
  ∧ created_at (status_update now st steps err m) = created_at m.
Proof.
  unfold status_update.
  destruct steps, (truthy err),
    (bool_decide (st = RUNNING ∧ status m = QUEUED)),
    (bool_decide (st ∈ [COMPLETED; ERROR; CANCELLED])),
    (started_at m) eqn:Hs;
    simpl; rewrite ?Hs; done.
Qed.

Lemma progress_update_identity now steps m :
  task_id (progress_update now steps m) = task_id m
  ∧ user_id (progress_update now steps m) = user_id m
  ∧ steps_target (progress_update now steps m) = steps_target m
  ∧ created_at (progress_update now steps m) = created_at m.
Proof. unfold progress_update. by destruct (_ <? _). Qed.

Lemma stall_check_identity t k now m :
  task_id (stall_check t k now m) = task_id m
  ∧ user_id (stall_check t k now m) = user_id m
  ∧ steps_target (stall_check t k now m) = steps_target m
  ∧ created_at (stall_check t k now m) = created_at m.
Proof.
  unfold stall_check. case_bool_decide; [done|].
  destruct (last_activity m); [|done]. simpl.
  destruct (total_seconds_gt _ _); [|done].
  destruct (_ <=? _); [|done].
  apply (status_update_identity now STALLED None _
           (set_stall_count (stall_count m + 1) m)).
Qed.

(** A property of the record of [tid] kept by the three record updates
    is kept by every run of calls that does not register [tid] again. *)
Lemma run_keeps (R : TaskMetrics → Prop) (tid : string) :
  (∀ now st steps err m, R m → R (status_update now st steps err m)) →
  (∀ now steps m, R m → R (progress_update now steps m)) →
  (∀ t k now m, R m → R (stall_check t k now m)) →
  ∀ (cs : list call) (self : TaskMonitor) (m m' : TaskMetrics),
    Forall (λ c, ∀ now uid ms, c ≠ Register now tid uid ms) cs →
    task_metrics self !! tid = Some m → R m →
    task_metrics (run cs self) !! tid = Some m' → R m'.
Proof.
  intros Hst Hpr Hck cs self m m' Hcs Hm HR. revert m'.
  induction cs as [|c cs IH] using rev_ind; intros m' Hm'.
  - cbn in Hm'. rewrite Hm in Hm'. by injection Hm' as <-.
  - rewrite Forall_app, Forall_singleton in Hcs. destruct Hcs as [Hcs Hc].
    rewrite run_snoc in Hm'.
    apply exec_lookup_Some in Hm'
      as [(now & uid & ms & -> & _) | (m0 & Hm0 & Hcase)].
    { by destruct (Hc now uid ms). }
    specialize (IH Hcs m0 Hm0).
    destruct Hcase as [-> | [(now & st & steps & err & _ & ->)
                     | [(now & steps & _ & ->) | (now & _ & ->)]]]; auto.
Qed.

(** X3. In every registry reached from an empty monitor, the record stored
    under a task id carries that id. *)
Theorem stored_record_carries_its_key
    (cs : list call) (t k ci : Z) (tid : string) (m : TaskMetrics) :
  task_metrics (run cs (init t k ci)) !! tid = Some m →
  task_id m = tid.
Proof.
  revert tid m. induction cs as [|c cs IH] using rev_ind; intros tid m Hm.
  - unfold run, init in Hm. simpl in Hm. by rewrite lookup_empty in Hm.
  - rewrite run_snoc in Hm.
    apply exec_lookup_Some in Hm
      as [(now & uid & ms & _ & ->) | (m0 & Hm0 & Hcase)]; [done|].
    specialize (IH tid m0 Hm0).
    destruct Hcase as [-> | [(now & st & steps & err & _ & ->)
                     | [(now & steps & _ & ->) | (now & _ & ->)]]].
    + done.
    + by destruct (status_update_identity now st steps err m0) as (-> & _).
    + by destruct (progress_update_identity now steps m0) as (-> & _).
    + by destruct (stall_check_identity (stall_timeout (run cs (init t k ci)))
                     (max_stall_checks (run cs (init t k ci))) now m0)
        as (-> & _).
Qed.

Lemma stored_record_carries_its_key_witness :
  ∃ m, task_metrics
         (run [Register 0 "t1" "alice" 30;
               UpdateStatus 1000000 "t1" RUNNING None None;
               CheckStalled 62000000] (init 60 3 300)) !! "t1" = Some m
       ∧ task_id m = "t1".
Proof.
  eexists. split; [vm_compute; reflexivity|].
  apply (stored_record_carries_its_key
           [Register 0 "t1" "alice" 30;
            UpdateStatus 1000000 "t1" RUNNING None None;
            CheckStalled 62000000] 60 3 300 "t1").
  vm_compute. reflexivity.
Defined.

(** X4. The owner, the step target and the creation time of a stored task
    never change, over any run of calls that does not register its id
    again. *)
Theorem owner_target_and_creation_are_fixed
    (cs : list call) (self : TaskMonitor) (tid : string) (m m' : TaskMetrics) :
  Forall (λ c, ∀ now uid ms, c ≠ Register now tid uid ms) cs →
  task_metrics self !! tid = Some m →
  task_metrics (run cs self) !! tid = Some m' →
  user_id m' = user_id m
  ∧ steps_target m' = steps_target m
  ∧ created_at m' = created_at m.
Proof.
  intros Hcs Hm Hm'.
  apply (run_keeps
           (λ x, user_id x = user_id m ∧ steps_target x = steps_target m
                 ∧ created_at x = created_at m) tid) with cs self m;
    try done.
  - intros now st steps err x (<- & <- & <-).
    by destruct (status_update_identity now st steps err x) as (_ & -> & -> & ->).
  - intros now steps x (<- & <- & <-).
    by destruct (progress_update_identity now steps x) as (_ & -> & -> & ->).
  - intros t k now x (<- & <- & <-).
    by destruct (stall_check_identity t k now x) as (_ & -> & -> & ->).
Qed.

Lemma owner_target_and_creation_are_fixed_witness :
  ∃ m m',
    task_metrics (register_task 0 "t1" "alice" 30 default_monitor) !! "t1"
    = Some m
    ∧ task_metrics
        (run [UpdateStatus 1000000 "t1" RUNNING (Some 2) None;
              UpdateProgress 2000000 "t1" 5;
              CheckStalled 63000000;
              UpdateStatus 64000000 "t1" ERROR None (Some "boom")]
           (register_task 0 "t1" "alice" 30 default_monitor)) !! "t1"
      = Some m'
    ∧ user_id m' = user_id m.
Proof.
  eexists _, _.
  split; [vm_compute; reflexivity|]. split; [vm_compute; reflexivity|].
  apply (owner_target_and_creation_are_fixed
           [UpdateStatus 1000000 "t1" RUNNING (Some 2) None;
            UpdateProgress 2000000 "t1" 5;
            CheckStalled 63000000;
            UpdateStatus 64000000 "t1" ERROR None (Some "boom")]
           (register_task 0 "t1" "alice" 30 default_monitor) "t1").
  - repeat constructor; discriminate.
  - vm_compute; reflexivity.
  - vm_compute; reflexivity.
Defined.



(** X6. In every registry reached from an empty monitor, a completed,
    failed or cancelled task that was started has its duration equal to
    its completion time minus its start time. *)
Theorem duration_is_completion_minus_start
    (cs : list call) (t k ci : Z) (tid : string) (m : TaskMetrics)
    (s : datetime) :
  task_metrics (run cs (init t k ci)) !! tid = Some m →
  status m ∈ [COMPLETED; ERROR; CANCELLED] →
  started_at m = Some s →
  ∃ c, completed_at m = Some c ∧ duration_seconds m = c - s.
Proof.
  intros Hm. revert s.
  cut (status m ∈ [COMPLETED; ERROR; CANCELLED] →
       ∀ s, started_at m = Some s →
            ∃ c, completed_at m = Some c ∧ duration_seconds m = c - s);
    [intros H s Hst; by apply H|].
  revert tid m Hm.
  apply (run_invariant
           (λ m, status m ∈ [COMPLETED; ERROR; CANCELLED] →
                 ∀ s, started_at m = Some s →
                      ∃ c, completed_at m = Some c
                           ∧ duration_seconds m = c - s)).
  - intros now tid uid ms _ s Hs. discriminate Hs.
  - intros now st steps err m _. rewrite status_update_status. intros Hin.
    rewrite !elem_of_cons, elem_of_nil in Hin.
    destruct Hin as [->|[->|[->|[]]]]; unfold status_update; simpl;
      destruct steps, (truthy err), (started_at m) eqn:Hs;
      simpl; rewrite ?Hs; intros s' Hs';
      change (started_at m = Some s') in Hs'; rewrite Hs in Hs';
      first [ discriminate Hs'
            | injection Hs' as <-; exists now; split; reflexivity ].
  - intros now steps m IH. unfold progress_update. by destruct (_ <? _).
  - intros t' k' now m IH.
    destruct (stall_check_status t' k' now m) as [Heq | [_ Hst]].
    + unfold stall_check in *. case_bool_decide; [done|].
      destruct (last_activity m); [|done]. simpl in *.
      destruct (total_seconds_gt _ _); [|done].
      destruct (_ <=? _); [|done].
      rewrite status_update_status in Heq. rewrite <- Heq in IH.
      rewrite status_update_status. intros Hin. exfalso.
      repeat (apply elem_of_cons in Hin as [?|Hin]; [done|]).
      by apply elem_of_nil in Hin.
    + rewrite Hst. intros Hin. exfalso.
      repeat (apply elem_of_cons in Hin as [?|Hin]; [done|]).
      by apply elem_of_nil in Hin.
  - intros tid m. unfold init; simpl. by rewrite lookup_empty.
Qed.

Lemma duration_is_completion_minus_start_witness :
  ∃ m, task_metrics
         (run [Register 0 "t1" "alice" 30;
               UpdateStatus 1000000 "t1" RUNNING None None;
               UpdateStatus 9000000 "t1" COMPLETED None None]
            (init 60 3 300)) !! "t1" = Some m
       ∧ ∃ c, completed_at m = Some c ∧ duration_seconds m = c - 1000000.
Proof.
  eexists. split; [vm_compute; reflexivity|].
  apply (duration_is_completion_minus_start
           [Register 0 "t1" "alice" 30;
            UpdateStatus 1000000 "t1" RUNNING None None;
            UpdateStatus 9000000 "t1" COMPLETED None None]
           60 3 300 "t1").
  - vm_compute; reflexivity.
  - simpl. by left.
  - reflexivity.
Defined.

(** X7. The stall scan never adds or removes a task id, and it leaves as it
    is every record that is not running, has no last activity, or was
    active within the stall timeout. *)
Theorem stall_scan_touches_only_silent_running_tasks
    (now : datetime) (self : TaskMonitor) :
  dom (task_metrics (check_stalled_tasks now self)) = dom (task_metrics self)
  ∧ ∀ tid m,
      task_metrics self !! tid = Some m →
      status m ≠ RUNNING
      ∨ last_activity m = None
      ∨ (∃ la, last_activity m = Some la
               ∧ now - la ≤ stall_timeout self * usec) →
      task_metrics (check_stalled_tasks now self) !! tid = Some m.
Proof.
  split.
  - apply set_eq. intros i.
    rewrite !elem_of_dom, check_stalled_tasks_lookup. by rewrite fmap_is_Some.
  - intros tid m Hm Hcase. rewrite check_stalled_tasks_lookup, Hm. simpl.
    f_equal. destruct Hcase as [Hst | [Hla | (la & Hla & Hle)]].
    + by apply stall_check_not_running.
    + unfold stall_check. case_bool_decide; [done|]. by rewrite Hla.
    + by apply (stall_check_active _ _ now m la).
Qed.

Lemma stall_scan_touches_only_silent_running_tasks_witness :
  task_metrics
    (check_stalled_tasks 999000000
       (register_task 0 "t1" "alice" 30 default_monitor)) !! "t1"
  = Some (new_metrics 0 "t1" "alice" 30).
Proof.
  apply (stall_scan_touches_only_silent_running_tasks 999000000
           (register_task 0 "t1" "alice" 30 default_monitor)).
  - vm_compute. reflexivity.
  - left. discriminate.
Defined.

(** X8. A cleanup only removes records, and a second cleanup at the same
    time removes nothing more. *)
Theorem cleanup_is_idempotent (now : datetime) (self : TaskMonitor) :
  task_metrics (cleanup_old_tasks now self) ⊆ task_metrics self
  ∧ cleanup_old_tasks now (cleanup_old_tasks now self)
    = cleanup_old_tasks now self.
Proof.
  split.
  - apply map_subseteq_spec. intros i x.
    rewrite cleanup_old_tasks_lookup.
    destruct (task_metrics self !! i) as [m|]; [|done].
    by destruct (removable now m).
  - assert (task_metrics (cleanup_old_tasks now (cleanup_old_tasks now self))
            = task_metrics (cleanup_old_tasks now self)) as Heq.
    { apply map_eq. intros i. rewrite !cleanup_old_tasks_lookup.
      destruct (task_metrics self !! i) as [m|]; [|done].
      by destruct (removable now m) eqn:Hr; rewrite ?Hr. }
    destruct (exec_settings (Cleanup now) (cleanup_old_tasks now self))
      as (Ht & Hk & Hc). cbn [exec] in Ht, Hk, Hc.
    destruct (cleanup_old_tasks now (cleanup_old_tasks now self)),
      (cleanup_old_tasks now self). simpl in *. by subst.
Qed.

End registry.

(** * Listings and statistics *)

Section listings.
Import Monitoring.

(** X9. [get_user_tasks] lists exactly the stored records owned by the
    user. *)
Theorem get_user_tasks_lists_the_records_of_the_user
    (uid : string) (self : TaskMonitor) (m : TaskMetrics) :
  m ∈ get_user_tasks uid self
  ↔ user_id m = uid ∧ ∃ tid, task_metrics self !! tid = Some m.
Proof.
  unfold get_user_tasks. rewrite list_elem_of_filter, list_elem_of_fmap.
  split.
  - intros [Hu ([tid x] & -> & Hin)]. split; [done|].
    exists tid. by apply elem_of_map_to_list.
  - intros [Hu (tid & Hm)]. split; [done|].
    exists (tid, m). split; [done|]. by apply elem_of_map_to_list.
Qed.

Lemma count_status_cons (st : TaskStatus) (m : TaskMetrics) (l : list TaskMetrics) :
  length (filter (λ x, status x = st) (m :: l))
  = ((if decide (status m = st) then 1 else 0)
     + length (filter (λ x, status x = st) l))%nat.
Proof. rewrite filter_cons. by case_decide. Qed.

(** Every record has one status: the counts by status add up to the
    length of the list. *)
Lemma count_by_status_total (l : list TaskMetrics) :
  sum_list ((λ st, length (filter (λ m, status m = st) l)) <$> all_statuses)
  = length l.
Proof.
  induction l as [|m l IH]; [done|].
  cbn [length]. rewrite <- IH. unfold all_statuses.
  cbn [fmap list_fmap sum_list sum_list_with]. unfold id.
  rewrite !count_status_cons.
  destruct (status m); simpl; lia.
Qed.

Lemma is_active_by_status (m : TaskMetrics) :
  is_active m = match status m with
                | QUEUED | RUNNING => true
                | _ => false
                end.
Proof. unfold is_active. by destruct (status m). Qed.

Lemma active_cons (m : TaskMetrics) (l : list TaskMetrics) :
  length (filter (λ x, is_active x = true) (m :: l))
  = ((if is_active m then 1 else 0)
     + length (filter (λ x, is_active x = true) l))%nat.
Proof. rewrite filter_cons. by destruct (is_active m). Qed.

Lemma size_list_to_set_le (l : list string) :
  (size (list_to_set l : gset string) ≤ length l)%nat.
Proof.
  induction l as [|x l IH]; [done|].
  rewrite list_to_set_cons. cbn [length].
  rewrite size_union_alt, size_singleton.
  assert (size (list_to_set l ∖ {[x]} : gset string)
          ≤ size (list_to_set l : gset string))%nat
    by (apply subseteq_size, subseteq_difference_l; done).
  lia.
Qed.

(** X10. The statistics are consistent: the counts by status add up to the
    number of tasks, the active tasks are the queued and the running
    ones, and there are at most as many active users as active tasks
    and at most as many active tasks as tasks. *)
Theorem system_stats_are_consistent (active : bool) (self : TaskMonitor) :
  let stats := get_system_stats active self in
  sum_list (snd <$> stats_status_counts stats) = stats_total_tasks stats
  ∧ stats_active_tasks stats
    = (count_status QUEUED self + count_status RUNNING self)%nat
  ∧ (stats_active_users stats ≤ stats_active_tasks stats)%nat
  ∧ (stats_active_tasks stats ≤ stats_total_tasks stats)%nat
  ∧ fst <$> stats_status_counts stats
    = ["queued"; "running"; "completed"; "error"; "cancelled"; "stalled"].
Proof.
  intros stats. subst stats. unfold get_system_stats. cbn [stats_status_counts
    stats_total_tasks stats_active_tasks stats_active_users].
  set (l := snd <$> map_to_list (task_metrics self)).
  assert (length l = size (task_metrics self)) as Hlen.
  { subst l. by rewrite length_fmap, length_map_to_list. }
  assert (length (filter (λ m, is_active m = true) l)
          = (length (filter (λ m, status m = QUEUED) l)
             + length (filter (λ m, status m = RUNNING) l))%nat) as Hact.
  { clear Hlen. induction l as [|m l IH]; [done|].
    rewrite active_cons, !count_status_cons, IH, is_active_by_status.
    destruct (status m); simpl; lia. }
  split; [|split; [|split; [|split]]].
  - rewrite <- list_fmap_compose. rewrite <- Hlen.
    apply (count_by_status_total l).
  - unfold get_active_tasks, count_status. fold l. exact Hact.
  - etrans; [apply size_list_to_set_le|]. rewrite length_fmap.
    unfold get_active_tasks. fold l.
    apply Nat.eq_le_incl. clear.
    induction l as [|m l IH]; [done|].
    rewrite active_cons, filter_cons, is_active_by_status.
    destruct (status m) eqn:Hst; case_decide as Hin; cbn [length];
      rewrite ?IH; try done;
      first [ exfalso; apply Hin; rewrite !elem_of_cons; by auto
            | exfalso;
              repeat (apply elem_of_cons in Hin as [?|Hin]; [done|]);
              by apply elem_of_nil in Hin ].
  - rewrite <- Hlen. unfold get_active_tasks. fold l. apply length_filter.
  - reflexivity.
Qed.

(** X11. The status strings and the enumeration: every member is found back
    from its value, and the module-level status update with a string
    that is the value of no member raises and changes nothing, while
    with the value of a member it is the status update of the
    monitor. *)
Theorem status_value_round_trip
    (now : datetime) (tid : string) (steps : option Z) (err : option string)
    (self : TaskMonitor) :
  (∀ st, of_value (value st) = Some st)
  ∧ (∀ s st, of_value s = Some st → value st = s)
  ∧ (∀ st, helper_update_task_status now tid (value st) steps err self
           = (Returned, update_task_status now tid st steps err self))
  ∧ (∀ s, (∀ st, value st ≠ s) →
          helper_update_task_status now tid s steps err self
          = (ValueError, self)).
Proof.
  assert (∀ st, of_value (value st) = Some st) as Hround
    by (intros []; reflexivity).
  assert (∀ s st, of_value s = Some st → value st = s) as Hback.
  { intros s st. unfold of_value.
    destruct (list_find _ _) as [[i x]|] eqn:Hf; [|done].
    simpl. intros [= <-]. by apply list_find_Some in Hf as (_ & ? & _). }
  split; [done|]. split; [done|]. split.
  - intros st. unfold helper_update_task_status. by rewrite Hround.
  - intros s Hs. unfold helper_update_task_status.
    destruct (of_value s) as [st|] eqn:Hv; [|done].
    by destruct (Hs st (Hback s st Hv)).
Qed.

Lemma status_value_round_trip_witness :
  helper_update_task_status 5 "t1" "paused" None None
    (register_task 0 "t1" "alice" 30 default_monitor)
  = (ValueError, register_task 0 "t1" "alice" 30 default_monitor).
Proof.
  apply (status_value_round_trip 5 "t1" None None
           (register_task 0 "t1" "alice" 30 default_monitor)).
  intros []; discriminate.
Defined.

End listings.

(** * The monitoring loop *)

Section loop.
Import Monitoring.

Lemma monitoring_pass_lookup now self last tid :
  task_metrics (fst (monitoring_pass now (self, last))) !! tid
  = match stall_check (stall_timeout self) (max_stall_checks self) now
            <$> task_metrics self !! tid with
    | Some m =>
        if total_seconds_gt (now - last) (cleanup_interval self)
           && removable now m
        then None else Some m
    | None => None
    end.
Proof.
  unfold monitoring_pass.
  destruct (check_stalled_tasks_settings now self) as (_ & _ & ->).
  destruct (total_seconds_gt _ _); cbn [fst andb].
  - by rewrite cleanup_old_tasks_lookup, check_stalled_tasks_lookup.
  - rewrite check_stalled_tasks_lookup.
    by destruct (task_metrics self !! tid).
Qed.

(** X12. The monitoring loop never adds a task, and it never changes or
    removes a queued or a stalled record, however long it runs. *)
Theorem monitoring_loop_leaves_queued_and_stalled
    (start : datetime) (ticks : list datetime) (self : TaskMonitor) :
  dom (task_metrics (fst (monitoring_loop start ticks self)))
    ⊆ dom (task_metrics self)
  ∧ ∀ tid m,
      task_metrics self !! tid = Some m →
      status m ∈ [QUEUED; STALLED] →
      task_metrics (fst (monitoring_loop start ticks self)) !! tid = Some m.
Proof.
  unfold monitoring_loop. revert self start.
  induction ticks as [|now ticks IH]; intros self start.
  - split; [done|]. by intros tid m Hm _.
  - cbn [foldl].
    destruct (monitoring_pass now (self, start)) as [self1 last1] eqn:Hpass.
    assert (∀ tid, task_metrics self1 !! tid
                   = task_metrics (fst (monitoring_pass now (self, start))) !! tid)
      as Hl by (intros tid; by rewrite Hpass).
    destruct (IH self1 last1) as [Hdom Hkeep]. split.
    + etrans; [exact Hdom|]. intros i. rewrite !elem_of_dom, Hl.
      rewrite monitoring_pass_lookup.
      destruct (task_metrics self !! i) as [m|]; [by eexists|].
      simpl. by intros [? ?].
    + intros tid m Hm Hst. apply Hkeep; [|done].
      rewrite Hl, monitoring_pass_lookup, Hm. simpl.
      assert (status m ≠ RUNNING) as Hnr.
      { intros Hr. rewrite Hr in Hst.
        repeat (apply elem_of_cons in Hst as [?|Hst]; [done|]).
        by apply elem_of_nil in Hst. }
      rewrite stall_check_not_running by done.
      assert (removable now m = false) as ->; [|by rewrite andb_false_r].
      unfold removable. rewrite bool_decide_eq_true_2; [done|].
      intros Hin.
      apply elem_of_cons in Hst as [Hs|Hst];
        [|apply elem_of_cons in Hst as [Hs|Hst];
          [|by apply elem_of_nil in Hst]];
        rewrite Hs in Hin;
        repeat (apply elem_of_cons in Hin as [?|Hin]; [done|]);
        by apply elem_of_nil in Hin.
Qed.

Lemma monitoring_loop_leaves_queued_and_stalled_witness :
  task_metrics
    (fst (monitoring_loop 0 [10000000; 400000000; 9000000000]
            (register_task 0 "t1" "alice" 30 default_monitor))) !! "t1"
  = Some (new_metrics 0 "t1" "alice" 30).
Proof.
  apply (monitoring_loop_leaves_queued_and_stalled 0
           [10000000; 400000000; 9000000000]
           (register_task 0 "t1" "alice" 30 default_monitor)).
  - vm_compute. reflexivity.
  - by left.
Defined.

End loop.

(** * The task handlers of the server *)

Section handlers.
Import Server.

Lemma user_active_tasks_nil (uid : string) (g : Globals) :
  user_active_tasks uid g = []
  ↔ ¬ ∃ tid info, active_tasks g !! tid = Some info
                  ∧ user_id info = uid ∧ status info = "running".
Proof.
  unfold user_active_tasks. split.
  - intros Hnil (tid & info & Hg & Hu & Hs).
    assert (info ∈ filter (λ t, user_id t = uid ∧ status t = "running")
                     (snd <$> map_to_list (active_tasks g))) as Hin.
    { apply list_elem_of_filter. split; [done|].
      apply list_elem_of_fmap. exists (tid, info). split; [done|].
      by apply elem_of_map_to_list. }
    rewrite Hnil in Hin. by apply elem_of_nil in Hin.
  - intros Hno. apply elem_of_nil_inv. intros info Hin.
    apply list_elem_of_filter in Hin as [[Hu Hs] Hin].
    apply list_elem_of_fmap in Hin as ([tid x] & -> & Hin).
    apply elem_of_map_to_list in Hin. apply Hno. by exists tid, x.
Qed.

Lemma execute_task_admitted
    now new_task_id default_session_id request (g : Globals) :
  user_active_tasks (req_user_id request) g = [] →
  ∃ resp g',
    execute_task now new_task_id default_session_id request g = (inr resp, g').
Proof. intros Hnil. unfold execute_task. rewrite Hnil. by eexists _, _. Qed.

Lemma cancel_task_accepted now tid (g : Globals) info :
  active_tasks g !! tid = Some info →
  status info ∈ ["queued"; "running"] →
  ∃ r g1,
    cancel_task now tid g = (inr r, g1)
    ∧ active_tasks g1 !! tid
      = Some (update_status_completed "cancelled" now info)
    ∧ ∀ tid', tid' ≠ tid → active_tasks g1 !! tid' = active_tasks g !! tid'.
Proof.
  intros Hg Hst. unfold cancel_task. rewrite Hg.
  rewrite bool_decide_eq_false_2 by (intros Hn; by apply Hn).
  eexists _, _. split; [reflexivity|]. simpl.
  split; [apply lookup_insert_eq|].
  intros tid' Hne. by apply lookup_insert_ne.
Qed.

Lemma cancel_task_refused now tid (g : Globals) info :
  active_tasks g !! tid = Some info →
  terminal (status info) →
  ∃ e, cancel_task now tid g = (inl e, g) ∧ InvalidStateError e.
Proof.
  intros Hg Hterm. unfold cancel_task. rewrite Hg.
  rewrite bool_decide_eq_true_2 by by apply terminal_not_cancellable.
  eexists; split; [reflexivity|]. done.
Qed.

Lemma run_agent_task_end_lookup now tid r (g : Globals) info :
  active_tasks g !! tid = Some info →
  active_tasks (run_agent_task_end now tid r g) !! tid
  = Some (finished_info now r info).
Proof.
  intros Hg. unfold run_agent_task_end. rewrite Hg. simpl.
  apply lookup_insert_eq.
Qed.

(** X13. A submission is refused with a conflict, the dicts unchanged,
    exactly when the user has a record whose status is running.
    Otherwise it stores one record under the new task id, queued, with
    no steps and no completion time, and answers with the ids of the
    task and the user; the records under the other ids and the agents
    are the ones they were. *)
Theorem execute_task_admits_unless_running
    (now : datetime) (new_task_id default_session_id : string)
    (request : TaskRequest) (g : Globals) :
  let running :=
    ∃ tid info, active_tasks g !! tid = Some info
                ∧ user_id info = req_user_id request
                ∧ status info = "running" in
  (running →
     ∃ e, execute_task now new_task_id default_session_id request g = (inl e, g)
          ∧ ConflictError e)
  ∧ (¬ running →
       ∃ resp g' info,
         execute_task now new_task_id default_session_id request g
         = (inr resp, g')
         ∧ resp_task_id resp = new_task_id
         ∧ resp_user_id resp = req_user_id request
         ∧ resp_success resp = true
         ∧ active_tasks g' !! new_task_id = Some info
         ∧ task_id info = new_task_id
         ∧ user_id info = req_user_id request
         ∧ status info = "queued"
         ∧ steps_completed info = 0
         ∧ completed_at info = None
         ∧ session_id info = resp_session_id resp
         ∧ (∀ tid, tid ≠ new_task_id →
              active_tasks g' !! tid = active_tasks g !! tid)
         ∧ task_agents g' = task_agents g).
Proof.
  intros running. split.
  - intros (tid & info & Hg & Hu & Hs).
    by apply (execute_task_conflict_when_running _ _ _ _ _ tid info).
  - intros Hno. apply user_active_tasks_nil in Hno.
    unfold execute_task. rewrite Hno.
    eexists _, _, _. split; [reflexivity|]. simpl.
    rewrite lookup_insert_eq. repeat split; try done.
    intros tid Hne. by apply lookup_insert_ne.
Qed.

Lemma execute_task_admits_unless_running_witness :
  let g := run_agent_task_start "task-1"
             (snd (execute_task 1000000 "task-1" "session-alice-1"
                     alice_request (mkGlobals ∅ ∅))) in
  ∃ e, execute_task 2000000 "task-2" "session-alice-2" alice_request g
       = (inl e, g)
       ∧ ConflictError e.
Proof.
  intros g.
  apply (execute_task_admits_unless_running 2000000 "task-2"
           "session-alice-2" alice_request g).
  eexists "task-1", _. split; [vm_compute; reflexivity|].
  split; reflexivity.
Defined.

(** X14. The session id of an admitted task is the one the request names,
    and the generated one when the request names none or an empty
    one. *)
Theorem execute_task_session_id
    (now : datetime) (new_task_id default_session_id : string)
    (request : TaskRequest) (g : Globals) (resp : TaskResponse) (g' : Globals) :
  execute_task now new_task_id default_session_id request g = (inr resp, g') →
  resp_session_id resp
  = match req_session_id request with
    | Some (String a s) => String a s
    | _ => default_session_id
    end.
Proof.
  unfold execute_task.
  destruct (user_active_tasks _ _); [|discriminate].
  intros [= <- _]. simpl.
  by destruct (req_session_id request) as [[|a s]|].
Qed.

Lemma execute_task_session_id_witness :
  ∃ resp g',
    execute_task 1000000 "task-1" "session-alice-1"
      (mkTaskRequest "open example.com" "alice" (Some "mine") None None)
      (mkGlobals ∅ ∅) = (inr resp, g')
    ∧ resp_session_id resp = "mine".
Proof.
  eexists _, _. split; [vm_compute; reflexivity|].
  eapply (execute_task_session_id 1000000 "task-1" "session-alice-1"
            (mkTaskRequest "open example.com" "alice" (Some "mine") None None)
            (mkGlobals ∅ ∅)).
  vm_compute. reflexivity.
Defined.

(** X15. A task can be cancelled once: after a cancellation that was
    accepted, a second one is answered with an invalid-state error and
    changes nothing. *)
Theorem cancel_task_twice
    (n1 n2 : datetime) (tid : string) (g : Globals) (info : TaskInfo) :
  active_tasks g !! tid = Some info →
  status info ∈ ["queued"; "running"] →
  ∃ r g1 e,
    cancel_task n1 tid g = (inr r, g1)
    ∧ cancel_task n2 tid g1 = (inl e, g1)
    ∧ InvalidStateError e.
Proof.
  intros Hg Hst.
  destruct (cancel_task_accepted n1 tid g info Hg Hst) as (r & g1 & Hr & Hg1 & _).
  destruct (cancel_task_refused n2 tid g1 _ Hg1) as (e & He & Hinv).
  { unfold terminal. simpl. right; right; left. }
  by exists r, g1, e.
Qed.

Lemma cancel_task_twice_witness :
  ∃ r g1 e,
    cancel_task 2000000 "task-1"
      (snd (execute_task 1000000 "task-1" "session-alice-1" alice_request
              (mkGlobals ∅ ∅))) = (inr r, g1)
    ∧ cancel_task 3000000 "task-1" g1 = (inl e, g1)
    ∧ InvalidStateError e.
Proof.
  eapply (cancel_task_twice 2000000 3000000 "task-1").
  - vm_compute. reflexivity.
  - simpl. by left.
Defined.

(** X16. When the [try] block of [run_agent_task] has ended for a stored
    task, the record of the task is completed, with the result, if every
    step returned, and failed, with the message of the exception, if a
    step raised an [Exception]; in both cases its completion time is the
    time of the update. If the block was left by an exception that the
    [except] branch does not catch, the record is not written: it keeps
    its status and has no new completion time. In the three cases the
    agent of the task is dropped from [task_agents], and the identity of
    the record and every other record and agent are untouched. *)
Theorem run_agent_task_end_finishes
    (now : datetime) (tid : string) (r : run_result) (g : Globals)
    (info : TaskInfo) :
  active_tasks g !! tid = Some info →
  ∃ info',
    active_tasks (run_agent_task_end now tid r g) !! tid = Some info'
    ∧ status info'
      = match r with
        | RunReturned _ => "completed"
        | RunRaised _ => "error"
        | RunInterrupted => status info
        end
    ∧ completed_at info'
      = match r with
        | RunInterrupted => completed_at info
        | _ => Some now
        end
    ∧ (∀ e, r = RunRaised e → error_message info' = Some e)
    ∧ (∀ res, r = RunReturned res → result info' = Some res)
    ∧ (r = RunInterrupted → info' = info)
    ∧ task_id info' = task_id info
    ∧ user_id info' = user_id info
    ∧ created_at info' = created_at info
    ∧ steps_completed info' = steps_completed info
    ∧ task_agents (run_agent_task_end now tid r g) !! tid = None
    ∧ (∀ tid', tid' ≠ tid →
         active_tasks (run_agent_task_end now tid r g) !! tid'
         = active_tasks g !! tid'
         ∧ task_agents (run_agent_task_end now tid r g) !! tid'
           = task_agents g !! tid').
Proof.
  intros Hg. unfold run_agent_task_end. rewrite Hg. simpl.
  exists (finished_info now r info).
  rewrite lookup_insert_eq, lookup_delete_eq.
  destruct r; simpl; repeat split; try done; try congruence.
  all: first [ by apply lookup_insert_ne | by apply lookup_delete_ne ].
Qed.

Lemma run_agent_task_end_finishes_witness :
  ∃ info',
    active_tasks
      (run_agent_task_end 9000000 "task-1" (RunRaised "browser crashed")
         (run_agent_task_agent "task-1" (mkAgent (Some (mkAgentState false)))
            (run_agent_task_start "task-1"
               (snd (execute_task 1000000 "task-1" "session-alice-1"
                       alice_request (mkGlobals ∅ ∅)))))) !! "task-1"
    = Some info'
    ∧ status info' = "error".
Proof.
  destruct (run_agent_task_end_finishes 9000000 "task-1"
              (RunRaised "browser crashed")
              (run_agent_task_agent "task-1"
                 (mkAgent (Some (mkAgentState false)))
                 (run_agent_task_start "task-1"
                    (snd (execute_task 1000000 "task-1" "session-alice-1"
                            alice_request (mkGlobals ∅ ∅)))))
              (mkTaskInfo "task-1" "alice" "session-alice-1"
                 "open example.com" "running" 0 1000000 (Some 30)
                 (Some "gpt-4o-mini") None None None))
    as (info' & Hg & Hs & _).
  - vm_compute. reflexivity.
  - exists info'. split; [exact Hg | exact Hs].
Defined.

(** X17. Cancelling and finishing do not commute. A task cancelled while its
    agent runs is marked cancelled at once, but when the agent then
    returns the record is overwritten: it ends completed, with the later
    completion time. Once the agent has finished first, a cancellation
    is refused. *)
Theorem cancellation_is_overwritten_when_the_agent_returns
    (n1 n2 : datetime) (tid res : string) (g : Globals) (info : TaskInfo) :
  active_tasks g !! tid = Some info →
  status info ∈ ["queued"; "running"] →
  (∃ info',
     active_tasks
       (run_agent_task_end n2 tid (RunReturned res)
          (snd (cancel_task n1 tid g))) !! tid = Some info'
     ∧ status info' = "completed"
     ∧ completed_at info' = Some n2)
  ∧ (∃ e,
       cancel_task n2 tid (run_agent_task_end n1 tid (RunReturned res) g)
       = (inl e, run_agent_task_end n1 tid (RunReturned res) g)
       ∧ InvalidStateError e).
Proof.
  intros Hg Hst. split.
  - destruct (cancel_task_accepted n1 tid g info Hg Hst)
      as (r & g1 & Hr & Hg1 & _).
    rewrite Hr. cbn [snd].
    rewrite (run_agent_task_end_lookup n2 tid (RunReturned res) g1 _ Hg1).
    by eexists.
  - apply (cancel_task_refused n2 tid _ (finished_info n1 (RunReturned res) info)).
    + by apply run_agent_task_end_lookup.
    + unfold terminal. simpl. left.
Qed.

Lemma cancellation_is_overwritten_when_the_agent_returns_witness :
  let g := run_agent_task_start "task-1"
             (snd (execute_task 1000000 "task-1" "session-alice-1"
                     alice_request (mkGlobals ∅ ∅))) in
  ∃ info',
    active_tasks
      (run_agent_task_end 9000000 "task-1" (RunReturned "done")
         (snd (cancel_task 5000000 "task-1" g))) !! "task-1" = Some info'
    ∧ status info' = "completed"
    ∧ completed_at info' = Some 9000000.
Proof.
  intros g.
  eapply (cancellation_is_overwritten_when_the_agent_returns
            5000000 9000000 "task-1" "done" g).
  - vm_compute. reflexivity.
  - simpl. right; left.
Defined.

(** X18. Cancelling the only running task of a user frees the user: the next
    submission of the user is admitted. *)
Theorem cancel_task_frees_the_user
    (n1 n2 : datetime) (tid new_task_id default_session_id : string)
    (request : TaskRequest) (g : Globals) (info : TaskInfo) :
  active_tasks g !! tid = Some info →
  status info ∈ ["queued"; "running"] →
  (∀ tid' info', active_tasks g !! tid' = Some info' →
                 user_id info' = req_user_id request →
                 status info' = "running" → tid' = tid) →
  ∃ resp g',
    execute_task n2 new_task_id default_session_id request
      (snd (cancel_task n1 tid g)) = (inr resp, g').
Proof.
  intros Hg Hst Honly.
  destruct (cancel_task_accepted n1 tid g info Hg Hst)
    as (r & g1 & Hr & Hg1 & Hother).
  rewrite Hr. cbn [snd].
  apply execute_task_admitted, user_active_tasks_nil.
  intros (tid' & info' & Hg' & Hu & Hs).
  destruct (decide (tid' = tid)) as [->|Hne].
  - rewrite Hg1 in Hg'. by injection Hg' as <-.
  - rewrite (Hother tid' Hne) in Hg'. by destruct (Honly tid' info').
Qed.

Lemma cancel_task_frees_the_user_witness :
  let g := run_agent_task_start "task-1"
             (snd (execute_task 1000000 "task-1" "session-alice-1"
                     alice_request (mkGlobals ∅ ∅))) in
  ∃ resp g',
    execute_task 3000000 "task-2" "session-alice-2" alice_request
      (snd (cancel_task 2000000 "task-1" g)) = (inr resp, g').
Proof.
  intros g.
  eapply (cancel_task_frees_the_user 2000000 3000000 "task-1").
  - vm_compute. reflexivity.
  - simpl. right; left.
  - intros tid' info' Hg' _ _.
    destruct (decide (tid' = "task-1")) as [->|Hne]; [done|].
    exfalso.
    assert (active_tasks g
            = {["task-1" :=
                  mkTaskInfo "task-1" "alice" "session-alice-1"
                    "open example.com" "running" 0 1000000 (Some 30)
                    (Some "gpt-4o-mini") None None None]}) as Heq
      by (vm_compute; reflexivity).
    rewrite Heq, lookup_singleton_ne in Hg' by done. discriminate Hg'.
Defined.

End handlers.

(** * Browser sessions *)

Section sessions.
Import Server.
Context {S : Type}.
Implicit Types (user_sessions : gmap string S) (uid : string).

(** X19. A request for the session of a user who has one when the dict
    is tested returns it and changes nothing. A request that finds none
    returns the session it creates and stores it for the user over
    whatever the other handlers have stored while it was suspended,
    leaving the entries of the other users as they left them; if the
    creation raises it stores nothing. So when a second request of the
    user runs while the first is suspended, each caller gets the session
    it created and the dict keeps the one of the first, stored last.
    Requests that do not overlap share one session: after a request that
    returned a session, the next one returns it and changes nothing. *)
Theorem get_or_create_session_keeps_the_last_store
    (create create' : string → option S)
    (during : gmap string S → gmap string S) uid user_sessions :
  (∀ session, user_sessions !! uid = Some session →
     get_or_create_session_among create during uid user_sessions
     = (Some session, user_sessions))
  ∧ (∀ session, user_sessions !! uid = None → create uid = Some session →
       fst (get_or_create_session_among create during uid user_sessions)
       = Some session
       ∧ snd (get_or_create_session_among create during uid user_sessions)
           !! uid = Some session
       ∧ ∀ uid', uid' ≠ uid →
           snd (get_or_create_session_among create during uid user_sessions)
             !! uid'
           = during user_sessions !! uid')
  ∧ (user_sessions !! uid = None → create uid = None →
       get_or_create_session_among create during uid user_sessions
       = (None, during user_sessions))
  ∧ (∀ s s', user_sessions !! uid = None →
       create uid = Some s → create' uid = Some s' →
       fst (get_or_create_session create' uid user_sessions) = Some s'
       ∧ fst (get_or_create_session_among create
                (λ sessions, snd (get_or_create_session create' uid sessions))
                uid user_sessions) = Some s
       ∧ snd (get_or_create_session_among create
                (λ sessions, snd (get_or_create_session create' uid sessions))
                uid user_sessions) !! uid = Some s)
  ∧ (∀ session,
       fst (get_or_create_session create uid user_sessions) = Some session →
       get_or_create_session create' uid
         (snd (get_or_create_session create uid user_sessions))
       = (Some session, snd (get_or_create_session create uid user_sessions))).
Proof.
  unfold get_or_create_session, get_or_create_session_among.
  split; [|split; [|split; [|split]]].
  - by intros session ->.
  - intros session -> ->. simpl. split; [done|].
    split; [apply lookup_insert_eq|].
    intros uid' Hne. by apply lookup_insert_ne.
  - by intros -> ->.
  - intros s s' -> -> ->. simpl. split; [done|]. split; [done|].
    apply lookup_insert_eq.
  - destruct (user_sessions !! uid) as [s0|] eqn:Hs.
    + simpl. intros session [= <-]. by rewrite Hs.
    + destruct (create uid) as [s0|]; simpl; [|done].
      intros session [= <-]. by rewrite lookup_insert_eq.
Qed.

(** X20. Releasing a session: a user without a session is left alone; a
    session that closes is removed, and with it gone a second release
    does nothing and the next request creates a new session; a session
    whose closing raises stays stored; the sessions of the other users
    are never touched. *)
Theorem cleanup_session_releases
    (close : S → bool) (create : string → option S) uid user_sessions :
  (user_sessions !! uid = None →
     cleanup_session close uid user_sessions = user_sessions)
  ∧ (∀ session, user_sessions !! uid = Some session → close session = true →
       cleanup_session close uid user_sessions !! uid = None
       ∧ cleanup_session close uid (cleanup_session close uid user_sessions)
         = cleanup_session close uid user_sessions
       ∧ fst (get_or_create_session create uid
                (cleanup_session close uid user_sessions))
         = create uid)
  ∧ (∀ session, user_sessions !! uid = Some session → close session = false →
       cleanup_session close uid user_sessions = user_sessions)
  ∧ (∀ uid', uid' ≠ uid →
       cleanup_session close uid user_sessions !! uid' = user_sessions !! uid').
Proof.
  unfold cleanup_session. split; [|split; [|split]].
  - by intros ->.
  - intros session -> ->. split; [apply lookup_delete_eq|]. split.
    + by rewrite lookup_delete_eq.
    + unfold get_or_create_session, get_or_create_session_among.
      rewrite lookup_delete_eq. by destruct (create uid).
  - by intros session -> ->.
  - intros uid' Hne. destruct (user_sessions !! uid) as [s|]; [|done].
    destruct (close s); [|done]. by apply lookup_delete_ne.
Qed.

End sessions.

Lemma get_or_create_session_keeps_the_last_store_witness :
  fst (Server.get_or_create_session (λ _, Some 2%nat) "alice" ∅) = Some 2%nat
  ∧ fst (Server.get_or_create_session_among (λ _, Some 1%nat)
           (λ sessions,
              snd (Server.get_or_create_session (λ _, Some 2%nat)
                     "alice" sessions))
           "alice" ∅) = Some 1%nat
  ∧ snd (Server.get_or_create_session_among (λ _, Some 1%nat)
           (λ sessions,
              snd (Server.get_or_create_session (λ _, Some 2%nat)
                     "alice" sessions))
           "alice" ∅) !! "alice" = Some 1%nat.
Proof.
  apply (get_or_create_session_keeps_the_last_store
           (λ _, Some 1%nat) (λ _, Some 2%nat) (λ sessions, sessions)
           "alice" ∅ ).
  - vm_compute. reflexivity.
  - reflexivity.
  - reflexivity.
Defined.

Lemma cleanup_session_releases_witness :
  Server.cleanup_session (λ _ : nat, true) "alice" {["alice" := 5%nat]}
    !! "alice" = None.
Proof.
  apply (cleanup_session_releases (λ _ : nat, true) (λ _, None) "alice"
           {["alice" := 5%nat]} ) with 5%nat.
  - vm_compute. reflexivity.
  - reflexivity.
Defined.
